(** * Emmet completion provider for Nova: abbreviation tracking and
    candidate synthesis

    Shallow embedding of [src/autocomplete/provider.ts].  The provider is
    a small state machine over the tracker slot of an editor: on every
    completion request it reuses, starts or extracts a tracker, expands the
    tracked text and, when expansion throws, decides whether the tracker
    is disposed.

    JavaScript strings are sequences of UTF-16 code units, positions are
    integers, exceptions and the tracker store are threaded through a
    small state-and-exception monad.  The diagnostics of the provider
    ([console.log], [measureTime]) have no part in what a request returns
    or does to the tracker and are left out. *)

From Stdlib Require Import Ascii.
From stdpp Require Import gmap strings list pretty.

Local Open Scope Z_scope.

(** ** JavaScript strings *)

(** A UTF-16 code unit. *)
Abbreviation char16 := N (only parsing).

(** A string value: the sequence of its code units. *)
Abbreviation jsstring := (list N) (only parsing).

(** The string value of an ASCII literal. *)
Definition str (s : string) : jsstring :=
  N_of_ascii <$> String.list_ascii_of_string s.

(** [s.slice(-n)]: the last [n] code units of [s] (all of [s] when it is
    shorter). *)
Definition slice_last (n : nat) (s : jsstring) : jsstring :=
  drop (length s - n)%nat s.

(** [s.slice(a, b)] for offsets that may lie outside of the string. *)
Definition substring (a b : Z) (s : jsstring) : jsstring :=
  drop (Z.to_nat a) (take (Z.to_nat b) s).

(** The code unit at offset [i], when there is one. *)
Definition charAt (s : jsstring) (i : Z) : option char16 :=
  if decide (0 <= i) then s !! Z.to_nat i else None.

(** ** Regular expressions

    The fragment used by the provider: character classes, [?] and
    concatenation, tested against the whole input ([^...$] without the
    multiline flag). *)
Module Regex.

Inductive t : Type :=
| Class (p : char16 -> bool)
| Opt (r : t)
| Cat (r1 r2 : t).

(** Backtracking matcher in continuation-passing style: [k] receives what
    is left of the input.  [?] is greedy. *)
Fixpoint run (r : t) (s : jsstring) (k : jsstring -> bool) : bool :=
  match r with
  | Class p =>
      match s with
      | c :: s' => p c && k s'
      | [] => false
      end
  | Opt r' => run r' s k || k s
  | Cat r1 r2 => run r1 s (fun s' => run r2 s' k)
  end.

Definition at_end (s : jsstring) : bool :=
  match s with [] => true | _ :: _ => false end.

(** [/^r$/.test(s)] *)
Definition test (r : t) (s : jsstring) : bool := run r s at_end.

Definition in_range (lo hi c : char16) : bool :=
  ((lo <=? c) && (c <=? hi))%N.

Definition code (x c : char16) : bool := (c =? x)%N.

(** [\s]: the white space and line terminator code units of ECMAScript. *)
Definition white_space (c : char16) : bool :=
  (in_range 9 13 c || code 32 c || code 160 c || code 5760 c
   || in_range 8192 8202 c || code 8232 c || code 8233 c || code 8239 c
   || code 8287 c || code 12288 c || code 65279 c)%N.

(** [[\s>]] *)
Definition bound (c : char16) : bool := (white_space c || code 62 c)%N.

(** [[a-zA-Z.#\[\(]] *)
Definition abbr_start (c : char16) : bool :=
  (in_range 97 122 c || in_range 65 90 c
   || code 46 c || code 35 c || code 91 c || code 40 c)%N.

End Regex.

(** [/^[\s>]?[a-zA-Z.#\[\(]$/] *)
Definition triggerPattern : Regex.t :=
  Regex.Cat (Regex.Opt (Regex.Class Regex.bound)) (Regex.Class Regex.abbr_start).

(** The [pairs] object: opening bracket to closing bracket. *)
Definition pairs : list (jsstring * jsstring) :=
  [ (str "{", str "}"); (str "[", str "]"); (str "(", str ")") ].

(** Property read [o[k]]; [None] is [undefined]. *)
Fixpoint prop (o : list (jsstring * jsstring)) (k : jsstring) : option jsstring :=
  match o with
  | [] => None
  | (k', v) :: o' => if decide (k = k') then Some v else prop o' k
  end.

(** [k in o] *)
Definition has_prop (o : list (jsstring * jsstring)) (k : jsstring) : bool :=
  bool_decide (is_Some (prop o k)).

(** ** Host and library values *)

Module Range.
Record t : Type := mk { start : Z; stop : Z }.
End Range.

(** Modelled from the spec: [toRange] of [../utils], the host range of the
    tracked range, a [[start, end]] pair. *)
Definition toRange (r : Z * Z) : Range.t := Range.mk r.1 r.2.

Module TextDocument.
Record t : Type := mk { text : jsstring }.
Definition length (d : t) : Z := Z.of_nat (List.length (text d)).
End TextDocument.

Inductive CompletionReason : Type := Invoke | Character.

Module CompletionContext.
Record t : Type := mk { position : Z; line : jsstring; reason : CompletionReason }.
End CompletionContext.

Inductive CompletionItemKind : Type := Expression | OtherKind.

Module CompletionItem.
Record t : Type := mk {
  label : jsstring;
  kind : CompletionItemKind;
  tokenize : bool;
  range : option Range.t;
  insertText : option jsstring;
  detail : option jsstring;
  documentation : option jsstring }.

(** [new CompletionItem(label, kind)] *)
Definition new (l : jsstring) (k : CompletionItemKind) : t :=
  mk l k false None None None None.
End CompletionItem.

Inductive SyntaxType : Type := markup | stylesheet.

(** A value of Emmet's [Options]: text, a flag or a field renderer. *)
Inductive OptionValue : Type :=
| OText (s : jsstring)
| OFlag (b : bool)
| OField (f : Z -> jsstring -> jsstring).

(** [Partial<Options>]: an object from option names to values. *)
Abbreviation Options := (gmap string OptionValue) (only parsing).

Module ActivationContext.
Record t (P : Type) : Type := mk {
  syntax : option string;
  context : option P;
  inline : option bool }.
Arguments mk {P}.
Arguments syntax {P}.
Arguments context {P}.
Arguments inline {P}.
End ActivationContext.

Module UserConfig.
Record t (P : Type) : Type := mk {
  type : SyntaxType;
  syntax : option string;
  context : option P;
  options : Options }.
Arguments mk {P}.
Arguments type {P}.
Arguments syntax {P}.
Arguments context {P}.
Arguments options {P}.
End UserConfig.

(** [EmmetTracker]: the tracker object with the fields the provider merges
    into it.  A field is [None] while the object does not have it. *)
Module Tracker.
Record t (P : Type) : Type := mk {
  range : Z * Z;
  syntax : option string;
  context : option P;
  inline : option bool;
  options : option Options }.
Arguments mk {P}.
Arguments range {P}.
Arguments syntax {P}.
Arguments context {P}.
Arguments inline {P}.
Arguments options {P}.

(** The object as the tracker module creates it: a range and nothing
    else. *)
Definition bare {P} (s e : Z) : t P := mk (s, e) None None None None.

(** A tracker read as an [ActivationContext] (structural typing). *)
Definition asContext {P} (tr : t P) : ActivationContext.t P :=
  ActivationContext.mk (syntax tr) (context tr) (inline tr).

(** One property of [Object.assign]: a property of the source replaces
    the target's. *)
Definition over {A} (target source : option A) : option A :=
  match source with Some v => Some v | None => target end.

(** [Object.assign(tracker, abbrCtx, { options })] *)
Definition assign {P} (tr : t P) (c : ActivationContext.t P) (o : Options) : t P :=
  mk (range tr)
     (over (syntax tr) (ActivationContext.syntax c))
     (over (context tr) (ActivationContext.context c))
     (over (inline tr) (ActivationContext.inline c))
     (Some o).
End Tracker.

(** What [extract] finds: the bounds of the abbreviation. *)
Module Extracted.
Record t : Type := mk { start : Z; stop : Z }.
End Extracted.

(** ** Exceptions *)

(** The value an [expand] call throws. *)
Inductive JsError : Type := ExpandError (message : jsstring).

(** How an evaluation ends: with a value or with a thrown error. *)
Inductive Outcome (A : Type) : Type :=
| Normal (a : A)
| Thrown (e : JsError).
Arguments Normal {A}.
Arguments Thrown {A}.

(** ** The collaborators of the provider

    [E] is the host's editor object and [P] the context payload of the
    Emmet library; the provider only passes them on.  The collaborators
    other than [expand] answer a miss with [None] ([undefined]). *)
Class Host (P E : Type) : Type := {
  (** the key of the editor in the tracker module's store *)
  editorId : E -> nat;
  (** [editor.document] *)
  document : E -> TextDocument.t;
  (** [getAbbreviationContext] of [./context] *)
  getAbbreviationContext : E -> Z -> option (ActivationContext.t P);
  (** [allowTracking] of [./tracker] *)
  allowTracking : E -> bool;
  (** [extract] of [../emmet] *)
  extract : E -> Z -> UserConfig.t P -> option Extracted.t;
  (** [expand] of [../emmet]; it throws on an invalid abbreviation *)
  expand : jsstring -> UserConfig.t P -> Outcome jsstring;
  (** [getOutputOptions] of [../emmet] *)
  getOutputOptions : E -> option bool -> Options;
  (** [getSyntaxType] of [../syntax] *)
  getSyntaxType : option string -> SyntaxType }.

(** ** The tracker store and the evaluation monad *)

(** The calls into the tracker module that change its store. *)
Inductive TrackerCall : Type :=
| StartTracking (editor : nat) (s e : Z)
| StopTracking (editor : nat).

(** The tracker module's store, one entry per registered tracker, and the
    calls made so far (kept to tell what a request has called). *)
Record World (P : Type) : Type := mkWorld {
  registry : list (nat * Tracker.t P);
  calls : list TrackerCall }.
Arguments mkWorld {P}.
Arguments registry {P}.
Arguments calls {P}.

(** A computation: it reads and changes the store and ends with a value or
    a thrown error.  The store keeps the changes made before a throw. *)
Definition Js (P A : Type) : Type := World P -> Outcome A * World P.

Definition ret {P A} (a : A) : Js P A := fun w => (Normal a, w).

Definition bind {P A B} (m : Js P A) (k : A -> Js P B) : Js P B :=
  fun w =>
    match m w with
    | (Normal a, w') => k a w'
    | (Thrown e, w') => (Thrown e, w')
    end.

(** A call that may throw and does not touch the store. *)
Definition lift {P A} (o : Outcome A) : Js P A := fun w => (o, w).

(** [try { body } catch (err) { handler }] *)
Definition try_catch {P A} (body : Js P A) (handler : JsError -> Js P A) : Js P A :=
  fun w =>
    match body w with
    | (Normal a, w') => (Normal a, w')
    | (Thrown e, w') => handler e w'
    end.

Declare Scope js_scope.
Delimit Scope js_scope with js.
Notation "'let*' x := m 'in' k" := (bind m (fun x => k))
  (at level 10, x name, m at level 100, k at level 200) : js_scope.
Notation "m ;;; k" := (bind m (fun _ => k))
  (at level 100, k at level 200, right associativity) : js_scope.

(** The first entry of a key. *)
Fixpoint slot {T} (k : nat) (r : list (nat * T)) : option T :=
  match r with
  | [] => None
  | (k', t) :: r' => if decide (k = k') then Some t else slot k r'
  end.

(** Every entry of a key removed. *)
Fixpoint drop_slot {T} (k : nat) (r : list (nat * T)) : list (nat * T) :=
  match r with
  | [] => []
  | (k', t) :: r' =>
      if decide (k = k') then drop_slot k r' else (k', t) :: drop_slot k r'
  end.

(** The object in the first entry of a key changed in place. *)
Fixpoint mutate_slot {T} (k : nat) (f : T -> T) (r : list (nat * T)) : list (nat * T) :=
  match r with
  | [] => []
  | (k', t) :: r' =>
      if decide (k = k') then (k', f t) :: r' else (k', t) :: mutate_slot k f r'
  end.

Section Provider.
Context {P E : Type} `{!Host P E}.

Local Open Scope js_scope.

(** Modelled from the spec: [editor.getTextInRange(range)], the host's
    document read ([textInRange]); the text between the two offsets of the
    range, clamped to the document. *)
Definition getTextInRange (editor : E) (r : Range.t) : jsstring :=
  substring (Range.start r) (Range.stop r) (TextDocument.text (document editor)).

(** Modelled from the spec: [getTracker] of [./tracker], the live tracker
    of the editor or [None]. *)
Definition getTracker (editor : E) : Js P (option (Tracker.t P)) :=
  fun w => (Normal (slot (editorId editor) (registry w)), w).

(** Modelled from the spec: [startTracking] of [./tracker]; it creates the
    tracker over [[s, e)] and registers it as the tracker of the editor, in
    the place of the one the editor had. *)
Definition startTracking (editor : E) (s e : Z) : Js P (Tracker.t P) :=
  fun w =>
    let tr := Tracker.bare s e in
    (Normal tr,
     mkWorld ((editorId editor, tr) :: drop_slot (editorId editor) (registry w))
             (calls w ++ [StartTracking (editorId editor) s e])).

(** Modelled from the spec: [stopTracking] of [./tracker]; it disposes of
    the tracker of the editor, if any. *)
Definition stopTracking (editor : E) : Js P unit :=
  fun w =>
    (Normal tt,
     mkWorld (drop_slot (editorId editor) (registry w))
             (calls w ++ [StopTracking (editorId editor)])).

(** [Object.assign(tracker, abbrCtx, { options })] on the tracker that
    [startTracking] has just returned for [editor]: the object is the one
    in the store, so it is changed there too, and it is the result. *)
Definition assignTracker
    (editor : E) (tracker : Tracker.t P) (c : ActivationContext.t P) (o : Options)
  : Js P (option (Tracker.t P)) :=
  fun w =>
    (Normal (Some (Tracker.assign tracker c o)),
     mkWorld (mutate_slot (editorId editor) (fun tr => Tracker.assign tr c o) (registry w))
             (calls w)).

Definition getConfig (editor : E) (abbrCtx : ActivationContext.t P) : UserConfig.t P :=
  UserConfig.mk
    (getSyntaxType (ActivationContext.syntax abbrCtx))
    (ActivationContext.syntax abbrCtx)
    (ActivationContext.context abbrCtx)
    (getOutputOptions editor (ActivationContext.inline abbrCtx)).

Definition previewField (index : Z) (placeholder : jsstring) : jsstring :=
  placeholder.

Definition getPreviewConfig (config : UserConfig.t P) : UserConfig.t P :=
  UserConfig.mk
    (UserConfig.type config)
    (UserConfig.syntax config)
    (UserConfig.context config)
    (<["output.baseIndent" := OText (str "")]>
       (<["output.indent" := OText (str "  ")]>
          (<["output.field" := OField previewField]> (UserConfig.options config)))).

(** Creates completion with expanded abbreviation, if possible *)
Definition createExpandAbbreviationCompletion
    (editor : E) (tracker : Tracker.t P) (config : UserConfig.t P)
  : Js P CompletionItem.t :=
  let abbrRange := toRange (Tracker.range tracker) in
  let abbr := getTextInRange editor abbrRange in
  let* snippet := lift (expand abbr config) in
  let* preview := lift (expand abbr (getPreviewConfig config)) in
  let completion := CompletionItem.new abbr Expression in
  ret (CompletionItem.mk
         (CompletionItem.label completion)
         (CompletionItem.kind completion)
         true
         (Some abbrRange)
         (Some snippet)
         (Some (str "Emmet"))
         (Some preview)).

(** Check if we can start abbreviation tracking for given editor and
    completion context.  If tracking is allowed, returns initial
    abbreviation range *)
Definition startAbbreviationTracking (editor : E) (ctx : CompletionContext.t)
  : Js P (option (Tracker.t P)) :=
  let prefix := slice_last 2 (CompletionContext.line ctx) in
  let pos := CompletionContext.position ctx in
  if Regex.test triggerPattern prefix then
    match getAbbreviationContext editor pos with
    | Some abbrCtx =>
        let start := pos - 1 in
        let lastCh := slice_last 1 prefix in
        let end_ :=
          if has_prop pairs lastCh then
            let nextCharRange :=
              Range.mk pos (Z.min (pos + 1) (TextDocument.length (document editor))) in
            if decide (Some (getTextInRange editor nextCharRange) = prop pairs lastCh)
            then pos + 1 else pos
          else pos in
        let* tracker := startTracking editor start end_ in
        assignTracker editor tracker abbrCtx
          (getOutputOptions editor (ActivationContext.inline abbrCtx))
    | None => ret None
    end
  else ret None.

(** If allowed, tries to extract abbreviation from given completion context *)
Definition extractAbbreviationTracking (editor : E) (ctx : CompletionContext.t)
  : Js P (option (Tracker.t P)) :=
  let pos := CompletionContext.position ctx in
  match getAbbreviationContext editor pos with
  | Some abbrCtx =>
      let config := getConfig editor abbrCtx in
      match extract editor pos config with
      | Some abbr =>
          let* tracker := startTracking editor (Extracted.start abbr) (Extracted.stop abbr) in
          assignTracker editor tracker abbrCtx
            (getOutputOptions editor (ActivationContext.inline abbrCtx))
      | None => ret None
      end
  | None => ret None
  end.

(** The [if (!tracker) { ... }] block of [provideCompletionItems]: the
    tracker of this request. *)
Definition resolveTracker (editor : E) (ctx : CompletionContext.t)
  : Js P (option (Tracker.t P)) :=
  let* tracker := getTracker editor in
  match tracker with
  | Some tr => ret (Some tr)
  | None =>
      match CompletionContext.reason ctx with
      | Invoke => extractAbbreviationTracking editor ctx
      | Character =>
          if allowTracking editor then startAbbreviationTracking editor ctx
          else ret None
      end
  end.

(** The [if (tracker) { ... }] block: the candidate, or the decision about
    the tracker when the abbreviation is invalid. *)
Definition completeTracker (editor : E) (ctx : CompletionContext.t) (tracker : Tracker.t P)
  : Js P (list CompletionItem.t) :=
  let config := getConfig editor (Tracker.asContext tracker) in
  try_catch
    (let* item := createExpandAbbreviationCompletion editor tracker config in
     ret [item])
    (fun err =>
       if decide (CompletionContext.position ctx = (Tracker.range tracker).2)
       then stopTracking editor ;;; ret []
       else ret []).

(** A completion request: the tracker of the request, then its candidate.
    [result] holds what the second half has pushed, if anything. *)
Definition provideCompletionItems (editor : E) (ctx : CompletionContext.t)
  : Js P (list CompletionItem.t) :=
  let* tracker := resolveTracker editor ctx in
  match tracker with
  | Some tr => completeTracker editor ctx tr
  | None => ret []
  end.

End Provider.

(** ** Observations on a request *)

Section Observations.
Context {P E : Type} `{!Host P E}.

(** The store after a request. *)
Definition after (editor : E) (ctx : CompletionContext.t) (w : World P) : World P :=
  (provideCompletionItems editor ctx w).2.

(** The calls into the tracker module made by a request. *)
Definition newCalls (editor : E) (ctx : CompletionContext.t) (w : World P)
  : list TrackerCall :=
  drop (length (calls w)) (calls (after editor ctx w)).

Fixpoint firstStart (k : nat) (cs : list TrackerCall) : option (Z * Z) :=
  match cs with
  | [] => None
  | StartTracking k' s e :: cs' =>
      if decide (k = k') then Some (s, e) else firstStart k cs'
  | StopTracking _ :: cs' => firstStart k cs'
  end.

(** The range over which a request starts tracking for its editor, if it
    does. *)
Definition startedRange (editor : E) (ctx : CompletionContext.t) (w : World P)
  : option (Z * Z) :=
  firstStart (editorId editor) (newCalls editor ctx w).

Definition isStop (c : TrackerCall) : bool :=
  match c with StopTracking _ => true | StartTracking _ _ _ => false end.

(** Whether a request calls [stopTracking]. *)
Definition stopCalled (editor : E) (ctx : CompletionContext.t) (w : World P) : bool :=
  existsb isStop (newCalls editor ctx w).

(** The text the tracker spans in the document. *)
Definition trackedText (editor : E) (tr : Tracker.t P) : jsstring :=
  getTextInRange editor (toRange (Tracker.range tr)).

(** The two expansions of the tracked text, normal and preview, when both
    succeed. *)
Definition expansions (editor : E) (tr : Tracker.t P) : option (jsstring * jsstring) :=
  let config := getConfig editor (Tracker.asContext tr) in
  match expand (trackedText editor tr) config,
        expand (trackedText editor tr) (getPreviewConfig config) with
  | Normal snippet, Normal preview => Some (snippet, preview)
  | _, _ => None
  end.

(** Expansion of the tracked text fails: one of the two [expand] calls
    throws. *)
Definition expansionFails (editor : E) (tr : Tracker.t P) : Prop :=
  let config := getConfig editor (Tracker.asContext tr) in
  (exists err, expand (trackedText editor tr) config = Thrown err) \/
  (exists err, expand (trackedText editor tr) (getPreviewConfig config) = Thrown err).

(** The trackers registered for an editor. *)
Definition liveTrackers (k : nat) (w : World P) : list (Tracker.t P) :=
  (filter (fun kv => kv.1 = k) (registry w)).*2.

(** Modelled from the spec: what happens to an editor by and between
    completion requests.  The change and selection handlers of the tracker
    module are not part of the provider; they may move the range of the
    live tracker or dispose of it. *)
Inductive Event : Type :=
| Completion (editor : E) (ctx : CompletionContext.t)
| HandlerMoves (editor : E) (r : Z * Z)
| HandlerDisposes (editor : E).

Definition moveRange (r : Z * Z) (tr : Tracker.t P) : Tracker.t P :=
  Tracker.mk r (Tracker.syntax tr) (Tracker.context tr) (Tracker.inline tr)
             (Tracker.options tr).

Definition step (w : World P) (ev : Event) : World P :=
  match ev with
  | Completion editor ctx => after editor ctx w
  | HandlerMoves editor r =>
      mkWorld (mutate_slot (editorId editor) (moveRange r) (registry w)) (calls w)
  | HandlerDisposes editor =>
      mkWorld (drop_slot (editorId editor) (registry w)) (calls w)
  end.

Definition run (evs : list Event) (w : World P) : World P := foldl step w evs.

(** The store before any request. *)
Definition initial : World P := mkWorld [] [].

(** The closing bracket of [pairs] for an opening one. *)
Definition closing (ch : char16) : option char16 :=
  if decide (ch = 123%N) then Some 125%N
  else if decide (ch = 91%N) then Some 93%N
  else if decide (ch = 40%N) then Some 41%N
  else None.

(** The end of the range implicit tracking starts with, after the trigger
    character [ch] typed at [pos - 1]: one past the caret when the
    document goes on with the closing bracket of [ch]. *)
Definition pairedEnd (doc : jsstring) (pos : Z) (ch : char16) : Z :=
  match closing ch with
  | Some closer => if decide (charAt doc pos = Some closer) then pos + 1 else pos
  | None => pos
  end.

(** The tracker and the store that [startTracking] and [Object.assign]
    leave. *)
Definition startedTracker (c : ActivationContext.t P) (o : Options) (s e : Z)
  : Tracker.t P :=
  Tracker.assign (Tracker.bare s e) c o.

Definition startedWorld (editor : E) (tr : Tracker.t P) (w : World P) : World P :=
  mkWorld ((editorId editor, tr) :: drop_slot (editorId editor) (registry w))
          (calls w ++ [StartTracking (editorId editor)
                         (Tracker.range tr).1 (Tracker.range tr).2]).

Definition stoppedWorld (editor : E) (w : World P) : World P :=
  mkWorld (drop_slot (editorId editor) (registry w))
          (calls w ++ [StopTracking (editorId editor)]).

(** The candidate built from the tracked text and its two expansions. *)
Definition candidate (editor : E) (tr : Tracker.t P) (snippet preview : jsstring)
  : CompletionItem.t :=
  CompletionItem.mk (trackedText editor tr) Expression true
                    (Some (toRange (Tracker.range tr)))
                    (Some snippet) (Some (str "Emmet")) (Some preview).

(** The trigger of implicit tracking in the words of the specification:
    the last two characters of the line are an optional white space or
    ['>'] followed by a letter, ['.'], ['#'], ['['] or ['(']. *)
Definition letter (c : char16) : Prop :=
  (97 <= c <= 122)%N \/ (65 <= c <= 90)%N.

Definition abbreviationStart (c : char16) : Prop :=
  letter c \/ c = 46%N \/ c = 35%N \/ c = 91%N \/ c = 40%N.

Definition boundary (c : char16) : Prop :=
  Regex.white_space c = true \/ c = 62%N.

Definition triggerMatches (line : jsstring) : Prop :=
  exists c, abbreviationStart c /\
    (slice_last 2 line = [c] \/
     exists b, boundary b /\ slice_last 2 line = [b; c]).

(** Implicit trigger precision as the specification states it: on an
    implicit request with tracking allowed, tracking starts exactly when the
    trigger matches and an activation context resolves. *)
Definition implicitTriggerPrecision
    (editor : E) (ctx : CompletionContext.t) (w : World P) : Prop :=
  CompletionContext.reason ctx = Character ->
  allowTracking editor = true ->
  (is_Some (startedRange editor ctx w) <->
   triggerMatches (CompletionContext.line ctx) /\
   is_Some (getAbbreviationContext editor (CompletionContext.position ctx)))
  /\ forall s e, startedRange editor ctx w = Some (s, e) ->
                 s = CompletionContext.position ctx - 1.

(** Configuration stability as the specification states it: the options
    of the configuration of a request are the options recorded on the
    tracker. *)
Definition optionsAsRecorded (editor : E) (tr : Tracker.t P) : Prop :=
  Tracker.options tr
  = Some (UserConfig.options (getConfig editor (Tracker.asContext tr))).

(** For the tracker that the request [(editor0, ctx0)] leaves in the store,
    a later request on [editor], the same surface in a later state, has the
    configuration of the first, and its options are the recorded ones. *)
Definition configurationStable
    (editor0 : E) (ctx0 : CompletionContext.t) (w0 : World P) (editor : E) : Prop :=
  forall tr,
    slot (editorId editor0) (registry (after editor0 ctx0 w0)) = Some tr ->
    editorId editor = editorId editor0 ->
    getConfig editor (Tracker.asContext tr) = getConfig editor0 (Tracker.asContext tr)
    /\ optionsAsRecorded editor tr.

End Observations.

(** ** A host to run the provider on

    An editor whose state is its text, HTML everywhere in the document, an
    expander of single tag names that indents by the white space the
    document begins with. *)
Module Demo.

Record Editor : Type := mk { id : nat; text : jsstring }.

Definition isLetter (c : char16) : bool :=
  Regex.in_range 97 122 c || Regex.in_range 65 90 c.

Fixpoint leadingSpace (s : jsstring) : jsstring :=
  match s with
  | c :: s' => if Regex.white_space c then c :: leadingSpace s' else []
  | [] => []
  end.

Definition tabStop (index : Z) (placeholder : jsstring) : jsstring :=
  str "${" ++ placeholder ++ str "}".

Definition outputOptions (editor : Editor) (inline : option bool) : Options :=
  <["output.baseIndent" := OText (leadingSpace (text editor))]>
    (<["output.indent" := OText (str "    ")]>
       (<["output.field" := OField tabStop]>
          (<["output.format" := OFlag (negb (default false inline))]> ∅))).

Definition optionText (o : Options) (k : string) : jsstring :=
  match o !! k with Some (OText s) => s | _ => [] end.

Definition optionField (o : Options) : Z -> jsstring -> jsstring :=
  match o !! "output.field" with Some (OField f) => f | _ => fun _ p => p end.

Definition expandTag (abbr : jsstring) (config : UserConfig.t unit) : Outcome jsstring :=
  if bool_decide (abbr <> []) && forallb isLetter abbr then
    Normal (optionText (UserConfig.options config) "output.baseIndent"
            ++ str "<" ++ abbr ++ str ">"
            ++ optionField (UserConfig.options config) 1 (str "content")
            ++ str "</" ++ abbr ++ str ">")
  else Thrown (ExpandError (str "invalid abbreviation")).

Definition abbreviationContext (editor : Editor) (pos : Z)
  : option (ActivationContext.t unit) :=
  if decide (0 <= pos <= Z.of_nat (length (text editor)))
  then Some (ActivationContext.mk (Some "html"%string) None (Some false))
  else None.

Fixpoint trailingLetters (rev_before : jsstring) : nat :=
  match rev_before with
  | c :: s => if isLetter c then S (trailingLetters s) else 0%nat
  | [] => 0%nat
  end.

Definition extractWord (editor : Editor) (pos : Z) (config : UserConfig.t unit)
  : option Extracted.t :=
  let n := trailingLetters (reverse (take (Z.to_nat pos) (text editor))) in
  if decide (n = 0%nat) then None
  else Some (Extracted.mk (pos - Z.of_nat n) pos).

Definition syntaxType (syntax : option string) : SyntaxType :=
  if decide (syntax = Some "css"%string) then stylesheet else markup.

#[global] Instance host : Host unit Editor := {
  editorId := id;
  document := fun editor => TextDocument.mk (text editor);
  getAbbreviationContext := abbreviationContext;
  allowTracking := fun _ => true;
  extract := extractWord;
  expand := expandTag;
  getOutputOptions := outputOptions;
  getSyntaxType := syntaxType }.

(** An implicit and an explicit request at [pos], after [line]. *)
Definition typed (pos : Z) (line : string) : CompletionContext.t :=
  CompletionContext.mk pos (str line) Character.

Definition invoked (pos : Z) (line : string) : CompletionContext.t :=
  CompletionContext.mk pos (str line) Invoke.

(** The tracker of an HTML abbreviation over [r], as the provider starts
    it on [editor]. *)
Definition tracked (editor : Editor) (r : Z * Z) : Tracker.t unit :=
  Tracker.mk r (Some "html"%string) None (Some false)
             (Some (outputOptions editor (Some false))).

(** The store in which [editor] has that tracker. *)
Definition tracking (editor : Editor) (r : Z * Z) : World unit :=
  mkWorld [(id editor, tracked editor r)] [].

(** [div] typed at the start of a document, [ul>] and [ul>l] on the way
    to [ul>li], a parenthesis that the editor has closed, a [d] after one
    space and the same after one tab, a blank line. *)
Definition div : Editor := mk 0 (str "div").
Definition ul_child : Editor := mk 0 (str "ul>").
Definition ul_l : Editor := mk 0 (str "ul>l").
Definition group : Editor := mk 0 (str " ()").
Definition spaced : Editor := mk 0 (str " d").
Definition tabbed : Editor := mk 0 [9%N; 100%N].
Definition blank : Editor := mk 0 (str "  ").

(** The events of typing [d], then [iv], then asking again. *)
Definition session : list (@Event Editor) :=
  [ Completion (mk 0 (str "d")) (typed 1 "d");
    HandlerMoves div (0, 3);
    Completion div (typed 3 "div") ].

(** A [d] typed inside a word, a parenthesis that stays open, and the
    line of [ul_child] after its tracker is gone and a [d] is typed. *)
Definition inside_word : Editor := mk 0 (str "xd").
Definition open_group : Editor := mk 0 (str " (").
Definition retyped : Editor := mk 0 (str "ul> d").

(** The activation context of the demo host. *)
Definition html : ActivationContext.t unit :=
  ActivationContext.mk (Some "html"%string) None (Some false).

End Demo.

(** ** The diagnostics of the provider

    The provider times its stages with [measureTime] and writes to the
    console.  Here is the provider once more, with both.  [Date.now()] is
    a sequence of readings, integral and in the range of time values, so
    that a difference of two readings is printed in decimal; so are a
    position and a length.  How the host prints a [CompletionReason] is
    left to [showReason]. *)
Module Diagnostics.

(** The readings of the clock, how many of them were taken, and the lines
    written to the console. *)
Record Diag : Type := mkDiag {
  readings : nat -> Z;
  reads : nat;
  console : list jsstring }.

(** [Date.now()] *)
Definition Date_now (d : Diag) : Z * Diag :=
  (readings d (reads d), mkDiag (readings d) (S (reads d)) (console d)).

(** [console.log(message)] *)
Definition console_log (message : jsstring) (d : Diag) : Diag :=
  mkDiag (readings d) (reads d) (console d ++ [message]).

(** An integer in a template literal. *)
Definition showNumber (n : Z) : jsstring := str (pretty n).

(** A boolean in a template literal. *)
Definition showBoolean (b : bool) : jsstring :=
  if b then str "true" else str "false".

(** [lines.join(separator)] *)
Fixpoint join (separator : jsstring) (lines : list jsstring) : jsstring :=
  match lines with
  | [] => []
  | [l] => l
  | l :: ls => l ++ separator ++ join separator ls
  end.

(** The variables that the closures of [measureTime] share. *)
Module Timer.
Record t : Type := mk { time : Z; start : Z; messages : list jsstring }.
End Timer.

Definition measureTime (d : Diag) : Timer.t * Diag :=
  let '(time, d) := Date_now d in
  (Timer.mk time time [], d).

Definition mark (t : Timer.t) (label : jsstring) (d : Diag) : Timer.t * Diag :=
  let '(now, d) := Date_now d in
  (Timer.mk now (Timer.start t)
     (Timer.messages t
        ++ [label ++ str ": " ++ showNumber (now - Timer.time t) ++ str "ms"]),
   d).

Definition dump (t : Timer.t) (d : Diag) : jsstring * Timer.t * Diag :=
  let '(now, d) := Date_now d in
  let messages :=
    Timer.messages t
      ++ [str "Total time: " ++ showNumber (now - Timer.start t) ++ str "ms"] in
  (join [10%N] messages, Timer.mk (Timer.time t) (Timer.start t) messages, d).

(** A timer used as the provider uses it: created, marked with the labels
    in turn, dumped. *)
Definition marked (labels : list jsstring) (td : Timer.t * Diag) : Timer.t * Diag :=
  foldl (fun td label => mark td.1 label td.2) td labels.

Definition report (labels : list jsstring) (d : Diag) : jsstring * Timer.t * Diag :=
  let td := marked labels (measureTime d) in
  dump td.1 td.2.

(** The time between the readings [n] and [n + 1] of a clock. *)
Definition lap (clock : nat -> Z) (n : nat) : Z := clock (S n) - clock n.

(** The line of a mark. *)
Definition markLine (label : jsstring) (duration : Z) : jsstring :=
  label ++ str ": " ++ showNumber duration ++ str "ms".

Section Logged.
Context {P E : Type} `{!Host P E}.
Variable showReason : CompletionReason -> jsstring.

(** A computation on the tracker store and the diagnostics. *)
Definition Logged (A : Type) : Type := World P * Diag -> Outcome A * (World P * Diag).

Definition retL {A} (a : A) : Logged A := fun s => (Normal a, s).

Definition bindL {A B} (m : Logged A) (k : A -> Logged B) : Logged B :=
  fun s =>
    match m s with
    | (Normal a, s') => k a s'
    | (Thrown e, s') => (Thrown e, s')
    end.

Definition try_catchL {A} (body : Logged A) (handler : JsError -> Logged A) : Logged A :=
  fun s =>
    match body s with
    | (Normal a, s') => (Normal a, s')
    | (Thrown e, s') => handler e s'
    end.

(** A computation of the provider that has no diagnostics of its own. *)
Definition quiet {A} (m : Js P A) : Logged A :=
  fun s => let '(out, w) := m s.1 in (out, (w, s.2)).

(** A step on the diagnostics alone. *)
Definition diag {A} (f : Diag -> A * Diag) : Logged A :=
  fun s => let '(a, d) := f s.2 in (Normal a, (s.1, d)).

Definition log (message : jsstring) : Logged unit :=
  diag (fun d => (tt, console_log message d)).

Local Notation "'let*' x := m 'in' k" := (bindL m (fun x => k))
  (at level 10, x name, m at level 100, k at level 200).
Local Notation "m ;;; k" := (bindL m (fun _ => k))
  (at level 100, k at level 200, right associativity).

(** The first line of a request. *)
Definition requestLine (ctx : CompletionContext.t) (hasTracker : bool) : jsstring :=
  str "cmpl " ++ showNumber (CompletionContext.position ctx)
  ++ str ", reason " ++ showReason (CompletionContext.reason ctx)
  ++ str ", has tracker? " ++ showBoolean hasTracker.

(** The line before an expansion. *)
Definition expandLine (abbr : jsstring) : jsstring :=
  str "Expand " ++ [34%N] ++ abbr ++ [34%N].

(** The last line of a request. *)
Definition returnLine (items : list CompletionItem.t) : jsstring :=
  str "return items: " ++ showNumber (Z.of_nat (length items)).

(** The stage of a request that looks for a tracker, when the editor has
    none. *)
Definition searchStage (editor : E) (ctx : CompletionContext.t) (w : World P)
  : list jsstring :=
  match slot (editorId editor) (registry w) with
  | Some _ => []
  | None =>
      match CompletionContext.reason ctx with
      | Invoke => [str "Extract tracking"]
      | Character => if allowTracking editor then [str "Start tracking"] else []
      end
  end.

(** The stage that builds the candidate, when the request has a tracker. *)
Definition candidateStage (editor : E) (ctx : CompletionContext.t) (w : World P)
  : list jsstring :=
  match (resolveTracker editor ctx w).1 with
  | Normal (Some _) => [str "Create abbreviation completion"]
  | _ => []
  end.

(** The labels a request marks on its timer. *)
Definition stages (editor : E) (ctx : CompletionContext.t) (w : World P)
  : list jsstring :=
  searchStage editor ctx w ++ candidateStage editor ctx w.

(** The lines of the second half of a request. *)
Definition candidateLines (editor : E) (ctx : CompletionContext.t) (w : World P)
  : list jsstring :=
  match (resolveTracker editor ctx w).1 with
  | Normal (Some tr) =>
      expandLine (trackedText editor tr)
      :: match expansions editor tr with
         | Some _ => []
         | None =>
             str "abbreviation is invalid"
             :: (if decide (CompletionContext.position ctx = (Tracker.range tr).2)
                 then [str "stop tracking"] else [])
         end
  | _ => []
  end.

(** The items of a request that ends normally. *)
Definition returned (editor : E) (ctx : CompletionContext.t) (w : World P)
  : list CompletionItem.t :=
  match (provideCompletionItems editor ctx w).1 with
  | Normal items => items
  | Thrown _ => []
  end.

(** The lines of a request: the request line, the lines of the second
    half, the report of the timer and the number of items. *)
Definition transcript (editor : E) (ctx : CompletionContext.t) (w : World P) (d : Diag)
  : list jsstring :=
  requestLine ctx (bool_decide (is_Some (slot (editorId editor) (registry w))))
  :: candidateLines editor ctx w
  ++ [(report (stages editor ctx w) d).1.1; returnLine (returned editor ctx w)].

(** Creates completion with expanded abbreviation, if possible *)
Definition createExpandAbbreviationCompletion
    (editor : E) (tracker : Tracker.t P) (config : UserConfig.t P)
  : Logged CompletionItem.t :=
  let abbrRange := toRange (Tracker.range tracker) in
  let abbr := getTextInRange editor abbrRange in
  log (expandLine abbr) ;;;
  let* snippet := quiet (lift (expand abbr config)) in
  let* preview := quiet (lift (expand abbr (getPreviewConfig config))) in
  let completion := CompletionItem.new abbr Expression in
  retL (CompletionItem.mk
          (CompletionItem.label completion)
          (CompletionItem.kind completion)
          true
          (Some abbrRange)
          (Some snippet)
          (Some (str "Emmet"))
          (Some preview)).

(** The [if (!tracker) { ... }] block, with its marks on the timer [t]. *)
Definition resolveTracker
    (editor : E) (ctx : CompletionContext.t) (tracker : option (Tracker.t P))
    (t : Timer.t)
  : Logged (option (Tracker.t P) * Timer.t) :=
  match tracker with
  | Some tr => retL (Some tr, t)
  | None =>
      match CompletionContext.reason ctx with
      | Invoke =>
          let* tracker := quiet (extractAbbreviationTracking editor ctx) in
          let* t := diag (mark t (str "Extract tracking")) in
          retL (tracker, t)
      | Character =>
          if allowTracking editor then
            let* tracker := quiet (startAbbreviationTracking editor ctx) in
            let* t := diag (mark t (str "Start tracking")) in
            retL (tracker, t)
          else retL (None, t)
      end
  end.

(** The [if (tracker) { ... }] block, with its lines and its mark. *)
Definition completeTracker
    (editor : E) (ctx : CompletionContext.t) (tracker : option (Tracker.t P))
    (t : Timer.t)
  : Logged (list CompletionItem.t * Timer.t) :=
  match tracker with
  | Some tracker =>
      let config := getConfig editor (Tracker.asContext tracker) in
      let* result :=
        try_catchL
          (let* item := createExpandAbbreviationCompletion editor tracker config in
           retL [item])
          (fun err =>
             log (str "abbreviation is invalid") ;;;
             if decide (CompletionContext.position ctx = (Tracker.range tracker).2)
             then log (str "stop tracking") ;;;
                  quiet (stopTracking editor) ;;;
                  retL []
             else retL []) in
      let* t := diag (mark t (str "Create abbreviation completion")) in
      retL (result, t)
  | None => retL ([], t)
  end.

(** [provideCompletionItems] with its timer and its console lines. *)
Definition provideCompletionItems (editor : E) (ctx : CompletionContext.t)
  : Logged (list CompletionItem.t) :=
  let* t := diag measureTime in
  let* tracker := quiet (getTracker editor) in
  log (requestLine ctx (bool_decide (is_Some tracker))) ;;;
  let* found := resolveTracker editor ctx tracker t in
  let* result := completeTracker editor ctx found.1 found.2 in
  let* report := diag (fun d => let '(out, _, d) := dump result.2 d in (out, d)) in
  log report ;;;
  log (returnLine result.1) ;;;
  retL result.1.

(** The lines a request writes to the console. *)
Definition newLines (editor : E) (ctx : CompletionContext.t) (w : World P) (d : Diag)
  : list jsstring :=
  drop (length (console d)) (console (provideCompletionItems editor ctx (w, d)).2.2).

End Logged.

End Diagnostics.

(** * Properties *)

(** ** Strings and the trigger pattern *)

Lemma slice_last_length (n : nat) (s : jsstring) :
  length (slice_last n s) = Nat.min n (length s).
Proof. unfold slice_last. rewrite length_drop. lia. Qed.

Lemma slice_last_suffix (n : nat) (s : jsstring) :
  exists front, s = front ++ slice_last n s.
Proof.
  exists (take (length s - n)%nat s). unfold slice_last.
  by rewrite take_drop.
Qed.

(** [prefix.slice(-1)] of the last two code units is the last code unit of
    the line. *)
Lemma slice_last_1_of_2 (s : jsstring) :
  slice_last 1 (slice_last 2 s) = slice_last 1 s.
Proof.
  unfold slice_last. rewrite drop_drop, length_drop. f_equal. lia.
Qed.

Lemma slice_last_1_last (s : jsstring) :
  slice_last 1 s = match last s with Some c => [c] | None => [] end.
Proof.
  destruct s as [|a s] using rev_ind; [done|].
  unfold slice_last. rewrite last_snoc, length_app. simpl.
  replace (length s + 1 - 1)%nat with (length s) by lia.
  by rewrite drop_app_length.
Qed.

(** The one-character lookahead of the bracket check reads the character
    after the caret, if the document has one. *)
Lemma lookahead_charAt (s : jsstring) (pos : Z) :
  substring pos (Z.min (pos + 1) (Z.of_nat (length s))) s
  = match charAt s pos with Some c => [c] | None => [] end.
Proof.
  unfold substring, charAt. case_decide as Hpos.
  - destruct (s !! Z.to_nat pos) as [c|] eqn:Hc.
    + pose proof (lookup_lt_Some _ _ _ Hc) as Hlt.
      replace (Z.to_nat (Z.min (pos + 1) (Z.of_nat (length s))))
        with (S (Z.to_nat pos)) by lia.
      rewrite (take_S_r _ _ _ Hc), drop_app_length'; [done|].
      rewrite length_take. lia.
    + apply lookup_ge_None in Hc.
      apply drop_ge. rewrite length_take. lia.
  - replace (Z.to_nat (Z.min (pos + 1) (Z.of_nat (length s)))) with 0%nat by lia.
    by rewrite take_0, drop_nil.
Qed.

(** What the trigger pattern accepts: one abbreviation-start character,
    alone or after one bound character. *)
Lemma trigger_test_spec (prefix : jsstring) :
  Regex.test triggerPattern prefix = true <->
  (exists c, prefix = [c] /\ Regex.abbr_start c = true) \/
  (exists b c, prefix = [b; c] /\ Regex.bound b = true /\ Regex.abbr_start c = true).
Proof.
  unfold Regex.test, triggerPattern. simpl. split.
  - intros H. apply orb_true_iff in H as [H|H].
    + destruct prefix as [|b [|c [|d rest]]]; simpl in H; try done.
      * by rewrite andb_false_r in H.
      * apply andb_true_iff in H as [Hb H].
        apply andb_true_iff in H as [Hc _]. right. eauto.
      * apply andb_true_iff in H as [_ H].
        by apply andb_true_iff in H as [_ H].
    + destruct prefix as [|c [|d rest]]; simpl in H; try done.
      * apply andb_true_iff in H as [Hc _]. left. eauto.
      * by apply andb_true_iff in H as [_ H].
  - intros [(c & -> & Hc)|(b & c & -> & Hb & Hc)]; simpl.
    + rewrite Hc. simpl. by rewrite andb_false_r.
    + by rewrite Hb, Hc.
Qed.

(** ** The tracker store *)

Section Store.
Context {T : Type}.
Implicit Types (k : nat) (r : list (nat * T)).

Lemma slot_drop_slot k r : slot k (drop_slot k r) = None.
Proof.
  induction r as [|[k' t] r IH]; simpl; [done|].
  case_decide as Hk; [done|]. simpl. by rewrite decide_False.
Qed.

Lemma slot_drop_slot_ne k k' r : k <> k' -> slot k' (drop_slot k r) = slot k' r.
Proof.
  intros Hne. induction r as [|[k'' t] r IH]; simpl; [done|].
  destruct (decide (k = k'')) as [->|Hk]; simpl.
  - by rewrite decide_False by congruence.
  - by rewrite IH.
Qed.

Lemma mutate_slot_head k (f : T -> T) t r :
  mutate_slot k f ((k, t) :: r) = (k, f t) :: r.
Proof. simpl. by rewrite decide_True. Qed.

Lemma slot_head k t r : slot k ((k, t) :: r) = Some t.
Proof. simpl. by rewrite decide_True. Qed.

Lemma keys_mutate_slot k (f : T -> T) r : (mutate_slot k f r).*1 = r.*1.
Proof.
  induction r as [|[k' t] r IH]; csimpl; [done|].
  case_decide; csimpl; [done|]. by rewrite IH.
Qed.

Lemma keys_drop_slot k k' r : k' ∈ (drop_slot k r).*1 -> k' ∈ r.*1 /\ k' <> k.
Proof.
  induction r as [|[k'' t] r IH]; csimpl; [by intros ?%elem_of_nil|].
  destruct (decide (k = k'')) as [->|Hk]; csimpl.
  - intros [? ?]%IH. split; [by right|done].
  - intros [->|Hin]%elem_of_cons.
    + split; [by left|congruence].
    + destruct (IH Hin). split; [by right|done].
Qed.

Lemma NoDup_drop_slot k r : NoDup r.*1 -> NoDup (drop_slot k r).*1.
Proof.
  induction r as [|[k' t] r IH]; csimpl; [done|].
  intros [Hnotin Hnd]%NoDup_cons. case_decide; csimpl; [by apply IH|].
  apply NoDup_cons. split; [|by apply IH].
  intros [? _]%keys_drop_slot. done.
Qed.

Lemma NoDup_start k t r : NoDup r.*1 -> NoDup ((k, t) :: drop_slot k r).*1.
Proof.
  intros Hnd. csimpl. apply NoDup_cons. split; [|by apply NoDup_drop_slot].
  intros [_ ?]%keys_drop_slot. done.
Qed.

Lemma filter_absent_key k r :
  k ∉ r.*1 -> filter (fun kv : nat * T => kv.1 = k) r = [].
Proof.
  induction r as [|[k' t] r IH]; [done|].
  rewrite fmap_cons, not_elem_of_cons. intros [Hne Hnotin].
  simpl in Hne. rewrite filter_cons_False by (simpl; congruence). by apply IH.
Qed.

(** With distinct keys, a key has at most one entry. *)
Lemma NoDup_one_entry k r :
  NoDup r.*1 -> (length (filter (fun kv => kv.1 = k) r) <= 1)%nat.
Proof.
  induction r as [|[k' t] r IH]; [simpl; lia|].
  rewrite fmap_cons. intros [Hnotin Hnd]%NoDup_cons. simpl in Hnotin.
  destruct (decide (k' = k)) as [->|Hne].
  - rewrite filter_cons_True by done.
    rewrite (filter_absent_key _ _ Hnotin). simpl. lia.
  - rewrite filter_cons_False by done. by apply IH.
Qed.

End Store.

(** ** The steps of a request *)

Lemma closing_pairs (ch : char16) :
  prop pairs [ch] = (fun closer => [closer]) <$> closing ch.
Proof.
  unfold closing, pairs. cbn [prop str fmap list_fmap String.list_ascii_of_string].
  change (N_of_ascii "{") with 123%N. change (N_of_ascii "}") with 125%N.
  change (N_of_ascii "[") with 91%N. change (N_of_ascii "]") with 93%N.
  change (N_of_ascii "(") with 40%N. change (N_of_ascii ")") with 41%N.
  repeat case_decide; simplify_eq; done.
Qed.

Lemma last_of_slice (n : nat) (s : jsstring) (c : char16) :
  last (slice_last n s) = Some c -> last s = Some c.
Proof.
  destruct (slice_last_suffix n s) as [front Hs]. intros Hlast.
  rewrite Hs. destruct (slice_last n s) as [|a l] using rev_ind; [done|].
  rewrite last_snoc in Hlast. simplify_eq.
  by rewrite app_assoc, last_snoc.
Qed.

(** A line the trigger pattern accepts ends with an abbreviation-start
    character. *)
Lemma trigger_last (line : jsstring) :
  Regex.test triggerPattern (slice_last 2 line) = true ->
  exists ch, last line = Some ch /\ Regex.abbr_start ch = true.
Proof.
  intros [(c & Hp & Hc)|(b & c & Hp & Hb & Hc)]%trigger_test_spec;
    exists c; (split; [|done]); apply (last_of_slice 2); by rewrite Hp.
Qed.

Lemma abbr_start_spec (c : char16) :
  Regex.abbr_start c = true <-> abbreviationStart c.
Proof.
  unfold Regex.abbr_start, abbreviationStart, letter, Regex.in_range, Regex.code.
  rewrite !orb_true_iff, !andb_true_iff, !N.leb_le, !N.eqb_eq. tauto.
Qed.

Lemma bound_spec (b : char16) : Regex.bound b = true <-> boundary b.
Proof.
  unfold Regex.bound, boundary, Regex.code.
  by rewrite orb_true_iff, N.eqb_eq.
Qed.

(** The pattern of the code accepts the last two characters of a line
    exactly when the trigger matches in the words of the specification. *)
Lemma trigger_words (line : jsstring) :
  Regex.test triggerPattern (slice_last 2 line) = true <-> triggerMatches line.
Proof.
  rewrite trigger_test_spec. unfold triggerMatches. split.
  - intros [(c & Hp & Hc)|(b & c & Hp & Hb & Hc)]; exists c;
      (split; [by apply abbr_start_spec|]).
    + by left.
    + right. exists b. split; [by apply bound_spec|done].
  - intros (c & Hc%abbr_start_spec & [Hp|(b & Hb%bound_spec & Hp)]).
    + left. eauto.
    + right. eauto.
Qed.

Section Requests.
Context {P E : Type} `{!Host P E}.
Implicit Types (editor : E) (ctx : CompletionContext.t) (w : World P)
  (tr : Tracker.t P).

Lemma start_assign editor (c : ActivationContext.t P) (o : Options) (s e : Z) w :
  bind (startTracking editor s e) (fun tracker => assignTracker editor tracker c o) w
  = (Normal (Some (startedTracker c o s e)),
     startedWorld editor (startedTracker c o s e) w).
Proof.
  unfold bind, startTracking, assignTracker, startedWorld, startedTracker.
  cbn [registry calls]. by rewrite mutate_slot_head.
Qed.

(** The implicit path, step by step: the trigger pattern, the activation
    context, then a tracker from [pos - 1] to the caret or one past it. *)
Lemma startAbbreviationTracking_eq editor ctx w :
  startAbbreviationTracking editor ctx w
  = let pos := CompletionContext.position ctx in
    if Regex.test triggerPattern (slice_last 2 (CompletionContext.line ctx)) then
      match getAbbreviationContext editor pos, last (CompletionContext.line ctx) with
      | Some c, Some ch =>
          let tr := startedTracker c (getOutputOptions editor (ActivationContext.inline c))
                      (pos - 1)
                      (pairedEnd (TextDocument.text (document editor)) pos ch) in
          (Normal (Some tr), startedWorld editor tr w)
      | _, _ => (Normal None, w)
      end
    else (Normal None, w).
Proof.
  unfold startAbbreviationTracking. cbv zeta.
  destruct (Regex.test _ _) eqn:Htest; [|done].
  destruct (trigger_last _ Htest) as (ch & Hlast & _). rewrite Hlast.
  destruct (getAbbreviationContext _ _) as [c|]; [|done].
  rewrite start_assign.
  match goal with
  | |- context [startedTracker _ _ _ ?e] =>
      assert (e = pairedEnd (TextDocument.text (document editor))
                    (CompletionContext.position ctx) ch) as ->; [|done]
  end.
  rewrite slice_last_1_of_2, slice_last_1_last, Hlast.
  unfold has_prop, pairedEnd, getTextInRange, TextDocument.length.
  cbn [Range.start Range.stop].
  rewrite closing_pairs, lookahead_charAt.
  destruct (closing ch) as [closer|]; csimpl; [|done].
  destruct (charAt _ _) as [next|]; repeat case_decide; simplify_eq; done.
Qed.

(** The explicit path: the activation context, the extraction, then a
    tracker over what was extracted. *)
Lemma extractAbbreviationTracking_eq editor ctx w :
  extractAbbreviationTracking editor ctx w
  = let pos := CompletionContext.position ctx in
    match getAbbreviationContext editor pos with
    | Some c =>
        match extract editor pos (getConfig editor c) with
        | Some abbr =>
            let tr := startedTracker c (getOutputOptions editor (ActivationContext.inline c))
                        (Extracted.start abbr) (Extracted.stop abbr) in
            (Normal (Some tr), startedWorld editor tr w)
        | None => (Normal None, w)
        end
    | None => (Normal None, w)
    end.
Proof.
  unfold extractAbbreviationTracking. cbv zeta.
  destruct (getAbbreviationContext _ _) as [c|]; [|done].
  destruct (extract _ _ _) as [abbr|]; [|done].
  by rewrite start_assign.
Qed.

(** A live tracker is the tracker of the request, and the store is left
    as it is. *)
Lemma resolveTracker_live editor ctx w tr :
  slot (editorId editor) (registry w) = Some tr ->
  resolveTracker editor ctx w = (Normal (Some tr), w).
Proof. intros Hlive. unfold resolveTracker, bind, getTracker. by rewrite Hlive. Qed.

Lemma resolveTracker_absent editor ctx w :
  slot (editorId editor) (registry w) = None ->
  resolveTracker editor ctx w
  = match CompletionContext.reason ctx with
    | Invoke => extractAbbreviationTracking editor ctx w
    | Character =>
        if allowTracking editor then startAbbreviationTracking editor ctx w
        else (Normal None, w)
    end.
Proof.
  intros Habsent. unfold resolveTracker, bind, getTracker. rewrite Habsent.
  destruct (CompletionContext.reason ctx); [done|].
  by destruct (allowTracking editor).
Qed.

(** The second half of a request: one candidate when both expansions
    succeed; otherwise none, and the tracker is disposed of exactly when the
    caret is at the end of its range. *)
Lemma completeTracker_eq editor ctx tr w :
  completeTracker editor ctx tr w
  = match expansions editor tr with
    | Some (snippet, preview) => (Normal [candidate editor tr snippet preview], w)
    | None =>
        if decide (CompletionContext.position ctx = (Tracker.range tr).2)
        then (Normal [], stoppedWorld editor w)
        else (Normal [], w)
    end.
Proof.
  unfold completeTracker, try_catch, createExpandAbbreviationCompletion, expansions,
    bind, lift, ret, trackedText. cbv zeta.
  destruct (expand _ (getConfig _ _)) as [snippet|err1]; cbn.
  - destruct (expand _ (getPreviewConfig _)) as [preview|err2]; cbn; [done|].
    by case_decide.
  - by case_decide.
Qed.

Lemma provide_eq editor ctx w :
  provideCompletionItems editor ctx w
  = match resolveTracker editor ctx w with
    | (Normal (Some tr), w') => completeTracker editor ctx tr w'
    | (Normal None, w') => (Normal [], w')
    | (Thrown err, w') => (Thrown err, w')
    end.
Proof.
  unfold provideCompletionItems, bind.
  by destruct (resolveTracker editor ctx w) as [[[tr|]|err] w'].
Qed.

Lemma provide_live editor ctx w tr :
  slot (editorId editor) (registry w) = Some tr ->
  provideCompletionItems editor ctx w = completeTracker editor ctx tr w.
Proof. intros Hlive. by rewrite provide_eq, (resolveTracker_live _ _ _ _ Hlive). Qed.

End Requests.

(** ** What a request does to the store *)

Section Effects.
Context {P E : Type} `{!Host P E}.
Implicit Types (editor : E) (ctx : CompletionContext.t) (w : World P)
  (tr : Tracker.t P).

Lemma expansions_None editor tr :
  expansions editor tr = None <-> expansionFails editor tr.
Proof.
  unfold expansions, expansionFails. cbv zeta.
  destruct (expand _ (getConfig _ _)) as [s|e1];
    destruct (expand _ (getPreviewConfig _)) as [p|e2];
    split; try done; try (intros _; eauto; fail);
    intros [[? ?]|[? ?]]; done.
Qed.

Lemma expansions_Some editor tr snippet preview :
  expansions editor tr = Some (snippet, preview) <->
  expand (trackedText editor tr) (getConfig editor (Tracker.asContext tr)) = Normal snippet /\
  expand (trackedText editor tr)
    (getPreviewConfig (getConfig editor (Tracker.asContext tr))) = Normal preview.
Proof.
  unfold expansions. cbv zeta.
  destruct (expand _ (getConfig _ _)) as [s|e1];
    destruct (expand _ (getPreviewConfig _)) as [p|e2];
    split; try done; try (intros [? ?]; done).
  - intros [= -> ->]. done.
  - intros [[= ->] [= ->]]. done.
Qed.

Lemma newCalls_app editor ctx w delta :
  calls (after editor ctx w) = calls w ++ delta -> newCalls editor ctx w = delta.
Proof. unfold newCalls. intros ->. by rewrite drop_app_length. Qed.

Lemma getTracker_eq editor w :
  getTracker editor w = (Normal (slot (editorId editor) (registry w)), w).
Proof. done. Qed.

(** A request on a live tracker: a candidate and the store as it was, or
    no candidate and the tracker disposed of at the end of its range. *)
Lemma request_live editor ctx w tr :
  slot (editorId editor) (registry w) = Some tr ->
  provideCompletionItems editor ctx w
  = match expansions editor tr with
    | Some (snippet, preview) => (Normal [candidate editor tr snippet preview], w)
    | None =>
        if decide (CompletionContext.position ctx = (Tracker.range tr).2)
        then (Normal [], stoppedWorld editor w)
        else (Normal [], w)
    end.
Proof. intros Hlive. by rewrite (provide_live _ _ _ _ Hlive), completeTracker_eq. Qed.

(** The tracker stage never throws; it leaves the store as it was or
    starts one tracker for the editor. *)
Lemma resolveTracker_cases editor ctx w :
  (exists tr, slot (editorId editor) (registry w) = Some tr /\
              resolveTracker editor ctx w = (Normal (Some tr), w)) \/
  (slot (editorId editor) (registry w) = None /\
   resolveTracker editor ctx w = (Normal None, w)) \/
  (exists tr, slot (editorId editor) (registry w) = None /\
              resolveTracker editor ctx w = (Normal (Some tr), startedWorld editor tr w)).
Proof.
  destruct (slot (editorId editor) (registry w)) as [tr|] eqn:Hslot.
  { left. exists tr. split; [done|]. by apply resolveTracker_live. }
  right. rewrite (resolveTracker_absent _ _ _ Hslot).
  destruct (CompletionContext.reason ctx).
  - rewrite extractAbbreviationTracking_eq. cbv zeta.
    destruct (getAbbreviationContext _ _) as [c|]; [|by left].
    destruct (extract _ _ _) as [abbr|]; [|by left].
    right. eauto.
  - destruct (allowTracking editor); [|by left].
    rewrite startAbbreviationTracking_eq. cbv zeta.
    destruct (Regex.test _ _); [|by left].
    destruct (getAbbreviationContext _ _) as [c|]; [|by left].
    destruct (last _) as [ch|]; [|by left].
    right. eauto.
Qed.

Lemma completeTracker_cases editor ctx tr w :
  (exists snippet preview,
      expansions editor tr = Some (snippet, preview) /\
      completeTracker editor ctx tr w = (Normal [candidate editor tr snippet preview], w)) \/
  (expansions editor tr = None /\
   CompletionContext.position ctx <> (Tracker.range tr).2 /\
   completeTracker editor ctx tr w = (Normal [], w)) \/
  (expansions editor tr = None /\
   CompletionContext.position ctx = (Tracker.range tr).2 /\
   completeTracker editor ctx tr w = (Normal [], stoppedWorld editor w)).
Proof.
  rewrite completeTracker_eq.
  destruct (expansions editor tr) as [[snippet preview]|]; [left; eauto|].
  right. case_decide; [right|left]; done.
Qed.

(** The store of a request keeps its keys distinct. *)
Lemma after_NoDup editor ctx w :
  NoDup (registry w).*1 -> NoDup (registry (after editor ctx w)).*1.
Proof.
  intros Hnd. unfold after. rewrite provide_eq.
  destruct (resolveTracker_cases editor ctx w)
    as [(tr & _ & ->)|[(_ & ->)|(tr & _ & ->)]]; [| done |].
  - destruct (completeTracker_cases editor ctx tr w)
      as [(s & p & _ & ->)|[(_ & _ & ->)|(_ & _ & ->)]]; try done.
    by apply NoDup_drop_slot.
  - destruct (completeTracker_cases editor ctx tr (startedWorld editor tr w))
      as [(s & p & _ & ->)|[(_ & _ & ->)|(_ & _ & ->)]];
      cbn [snd registry startedWorld stoppedWorld];
      try apply NoDup_drop_slot; by apply NoDup_start.
Qed.

Lemma step_NoDup w (ev : Event) :
  NoDup (registry w).*1 -> NoDup (registry (step w ev)).*1.
Proof.
  intros Hnd. destruct ev as [editor ctx|editor r|editor]; cbn [step registry].
  - by apply after_NoDup.
  - by rewrite keys_mutate_slot.
  - by apply NoDup_drop_slot.
Qed.

Lemma run_NoDup (evs : list Event) w :
  NoDup (registry w).*1 -> NoDup (registry (run evs w)).*1.
Proof.
  revert w. induction evs as [|ev evs IH]; intros w Hnd; [done|].
  apply IH. by apply step_NoDup.
Qed.

Lemma firstStart_stops (k : nat) (stops : list TrackerCall) :
  Forall (fun c => isStop c = true) stops -> firstStart k stops = None.
Proof.
  induction 1 as [|c stops Hc _ IH]; [done|].
  destruct c; [done|]. done.
Qed.

(** The second half of a request calls nothing but [stopTracking]. *)
Lemma completeTracker_calls editor ctx tr w :
  exists stops,
    calls (completeTracker editor ctx tr w).2 = calls w ++ stops
    /\ Forall (fun c => isStop c = true) stops.
Proof.
  destruct (completeTracker_cases editor ctx tr w)
    as [(s & p & _ & ->)|[(_ & _ & ->)|(_ & _ & ->)]]; cbn [snd stoppedWorld calls].
  - exists []. by rewrite app_nil_r.
  - exists []. by rewrite app_nil_r.
  - exists [StopTracking (editorId editor)]. split; [done|]. by repeat constructor.
Qed.

(** With a live tracker a request calls nothing but [stopTracking]. *)
Lemma newCalls_live editor ctx w tr :
  slot (editorId editor) (registry w) = Some tr ->
  Forall (fun c => isStop c = true) (newCalls editor ctx w).
Proof.
  intros Hlive.
  destruct (completeTracker_calls editor ctx tr w) as (stops & Hcalls & Hstops).
  rewrite (newCalls_app editor ctx w stops); [done|].
  unfold after. by rewrite (provide_live _ _ _ _ Hlive).
Qed.

(** Without a live tracker, the range a request starts tracking over is
    the range of the tracker that its first half returns. *)
Lemma startedRange_absent editor ctx w :
  slot (editorId editor) (registry w) = None ->
  startedRange editor ctx w
  = match (resolveTracker editor ctx w).1 with
    | Normal (Some tr) => Some (Tracker.range tr)
    | _ => None
    end.
Proof.
  intros Habsent. unfold startedRange.
  destruct (resolveTracker_cases editor ctx w)
    as [(tr & Hlive & _)|[(_ & Hres)|(tr & _ & Hres)]]; [congruence| |].
  - rewrite (newCalls_app editor ctx w []), Hres; [done|].
    unfold after. by rewrite provide_eq, Hres, app_nil_r.
  - destruct (completeTracker_calls editor ctx tr (startedWorld editor tr w))
      as (stops & Hcalls & Hstops).
    rewrite (newCalls_app editor ctx w
               (StartTracking (editorId editor) (Tracker.range tr).1 (Tracker.range tr).2
                  :: stops)).
    + rewrite Hres. cbn [firstStart fst]. rewrite decide_True by done.
      by destruct (Tracker.range tr).
    + unfold after. rewrite provide_eq, Hres, Hcalls.
      cbn [startedWorld calls]. by rewrite <- app_assoc.
Qed.

(** What the first half of an implicit request without a live tracker
    returns. *)
Lemma resolveTracker_implicit editor ctx w :
  slot (editorId editor) (registry w) = None ->
  CompletionContext.reason ctx = Character ->
  allowTracking editor = true ->
  (resolveTracker editor ctx w).1
  = let pos := CompletionContext.position ctx in
    if Regex.test triggerPattern (slice_last 2 (CompletionContext.line ctx)) then
      match getAbbreviationContext editor pos, last (CompletionContext.line ctx) with
      | Some c, Some ch =>
          Normal (Some (startedTracker c
                          (getOutputOptions editor (ActivationContext.inline c))
                          (pos - 1)
                          (pairedEnd (TextDocument.text (document editor)) pos ch)))
      | _, _ => Normal None
      end
    else Normal None.
Proof.
  intros Habsent Hreason Hallow.
  rewrite (resolveTracker_absent _ _ _ Habsent), Hreason, Hallow,
    startAbbreviationTracking_eq. cbv zeta.
  destruct (Regex.test _ _); [|done].
  destruct (getAbbreviationContext _ _) as [c|]; [|done].
  by destruct (last _).
Qed.

(** The tracker that a request without a live tracker gets is the one it
    has just started: a fresh range with the activation context and the
    output options of this editor merged in. *)
Lemma resolveTracker_started editor ctx w tr w' :
  slot (editorId editor) (registry w) = None ->
  resolveTracker editor ctx w = (Normal (Some tr), w') ->
  w' = startedWorld editor tr w /\
  exists c s e,
    tr = startedTracker c (getOutputOptions editor (ActivationContext.inline c)) s e.
Proof.
  intros Habsent. rewrite (resolveTracker_absent _ _ _ Habsent).
  destruct (CompletionContext.reason ctx).
  - rewrite extractAbbreviationTracking_eq. cbv zeta.
    destruct (getAbbreviationContext _ _) as [c|]; [|done].
    destruct (extract _ _ _) as [abbr|]; [|done].
    intros [= <- <-]. eauto 6.
  - destruct (allowTracking editor); [|done].
    rewrite startAbbreviationTracking_eq. cbv zeta.
    destruct (Regex.test _ _); [|done].
    destruct (getAbbreviationContext _ _) as [c|]; [|done].
    destruct (last _) as [ch|]; [|done].
    intros [= <- <-]. eauto 6.
Qed.

(** The inline flag of a started tracker is the one of its activation
    context. *)
Lemma startedTracker_inline (c : ActivationContext.t P) (o : Options) (s e : Z) :
  Tracker.inline (startedTracker c o s e) = ActivationContext.inline c.
Proof. by destruct c as [? ? []]. Qed.

(** The tracker a request leaves for an editor that had none. *)
Lemma after_started editor ctx w tr :
  slot (editorId editor) (registry w) = None ->
  slot (editorId editor) (registry (after editor ctx w)) = Some tr ->
  exists c s e,
    tr = startedTracker c (getOutputOptions editor (ActivationContext.inline c)) s e.
Proof.
  intros Habsent. unfold after. rewrite provide_eq.
  destruct (resolveTracker editor ctx w) as [[[tr'|]|err] w'] eqn:Hres.
  - destruct (resolveTracker_started _ _ _ _ _ Habsent Hres) as (-> & Hshape).
    destruct (completeTracker_cases editor ctx tr' (startedWorld editor tr' w))
      as [(s & p & _ & ->)|[(_ & _ & ->)|(_ & _ & ->)]];
      cbn [snd stoppedWorld startedWorld registry].
    + rewrite slot_head. by intros [= <-].
    + rewrite slot_head. by intros [= <-].
    + by rewrite slot_drop_slot.
  - destruct (resolveTracker_cases editor ctx w)
      as [(? & ? & ?)|[(_ & Hres')|(? & _ & Hres')]]; [congruence| |congruence].
    rewrite Hres in Hres'. injection Hres' as <-. cbn [snd]. congruence.
  - destruct (resolveTracker_cases editor ctx w)
      as [(? & ? & ?)|[(_ & Hres')|(? & _ & Hres')]]; congruence.
Qed.

(** A request changes no field of a tracker that stays live. *)
Lemma live_tracker_frame editor ctx w tr tr' :
  slot (editorId editor) (registry w) = Some tr ->
  slot (editorId editor) (registry (after editor ctx w)) = Some tr' ->
  tr' = tr.
Proof.
  intros Hlive. unfold after. rewrite (request_live _ _ _ _ Hlive).
  destruct (expansions editor tr) as [[s p]|]; cbn [snd]; [congruence|].
  case_decide; cbn [snd stoppedWorld registry]; [|congruence].
  by rewrite slot_drop_slot.
Qed.

End Effects.

(** * The claims *)

Section Claims.
Context {P E : Type} `{!Host P E}.
Implicit Types (editor : E) (ctx : CompletionContext.t) (w : World P)
  (tr : Tracker.t P).

(** C1, disposal exactness and atomicity.  On a request with a live
    tracker whose tracked text fails to expand, the request returns no
    candidate; when the position of the request is the end of the tracked
    range the tracker is disposed of and [getTracker] then returns nothing;
    when the position is another one the store is untouched and
    [getTracker] still returns that tracker. *)
Theorem disposal_exactness editor ctx w tr :
  slot (editorId editor) (registry w) = Some tr ->
  expansionFails editor tr ->
  (provideCompletionItems editor ctx w).1 = Normal []
  /\ (CompletionContext.position ctx = (Tracker.range tr).2 ->
      getTracker editor (after editor ctx w) = (Normal None, after editor ctx w))
  /\ (CompletionContext.position ctx <> (Tracker.range tr).2 ->
      after editor ctx w = w /\
      getTracker editor (after editor ctx w) = (Normal (Some tr), after editor ctx w)).
Proof.
  intros Hlive Hfails%expansions_None. unfold after.
  rewrite (request_live _ _ _ _ Hlive), Hfails.
  case_decide as Hpos; (split; [done|]); split; intros Hpos'; try done.
  - rewrite getTracker_eq. cbn [snd stoppedWorld registry].
    by rewrite slot_drop_slot.
  - split; [done|]. rewrite getTracker_eq. cbn [snd]. by rewrite Hlive.
Qed.

(** C4, candidate fidelity.  On a request with a live tracker whose
    tracked text [A] expands under the normal and under the preview
    configuration, the request returns one candidate: its label is [A], its
    insertion text the normal expansion, its documentation the preview
    expansion, it is tokenized, its range is the tracked range and its
    detail is ['Emmet']. *)
Theorem candidate_fidelity editor ctx w tr (snippet preview : jsstring) :
  slot (editorId editor) (registry w) = Some tr ->
  expand (trackedText editor tr) (getConfig editor (Tracker.asContext tr))
    = Normal snippet ->
  expand (trackedText editor tr)
    (getPreviewConfig (getConfig editor (Tracker.asContext tr))) = Normal preview ->
  exists item,
    (provideCompletionItems editor ctx w).1 = Normal [item]
    /\ CompletionItem.label item = trackedText editor tr
    /\ CompletionItem.insertText item = Some snippet
    /\ CompletionItem.documentation item = Some preview
    /\ CompletionItem.tokenize item = true
    /\ CompletionItem.range item
       = Some (Range.mk (Tracker.range tr).1 (Tracker.range tr).2)
    /\ CompletionItem.detail item = Some (str "Emmet").
Proof.
  intros Hlive Hsnippet Hpreview.
  assert (expansions editor tr = Some (snippet, preview)) as Hboth
    by by apply expansions_Some.
  exists (candidate editor tr snippet preview).
  rewrite (request_live _ _ _ _ Hlive), Hboth. done.
Qed.

(** C5, never-fail propagation.  Whatever the store holds and whatever
    [expand] does, a request ends normally, with no candidate or with one.
    The collaborators other than [expand] do not throw: they have no way to
    in [Host]. *)
Theorem never_fails editor ctx w :
  exists items,
    (provideCompletionItems editor ctx w).1 = Normal items
    /\ (length items <= 1)%nat.
Proof.
  rewrite provide_eq.
  destruct (resolveTracker_cases editor ctx w)
    as [(tr & _ & ->)|[(_ & ->)|(tr & _ & ->)]].
  - destruct (completeTracker_cases editor ctx tr w)
      as [(s & p & _ & ->)|[(_ & _ & ->)|(_ & _ & ->)]];
      eexists; (split; [done|]); simpl; lia.
  - exists []. split; [done|]. simpl. lia.
  - destruct (completeTracker_cases editor ctx tr (startedWorld editor tr w))
      as [(s & p & _ & ->)|[(_ & _ & ->)|(_ & _ & ->)]];
      eexists; (split; [done|]); simpl; lia.
Qed.

(** C9, extraction miss.  On an explicit invocation without a live tracker,
    when no activation context resolves at the position or [extract] finds
    no abbreviation, the request returns no candidate, makes no call into
    the tracker module, and [getTracker] still returns nothing. *)
Theorem extraction_miss editor ctx w :
  CompletionContext.reason ctx = Invoke ->
  slot (editorId editor) (registry w) = None ->
  (getAbbreviationContext editor (CompletionContext.position ctx) = None \/
   exists c, getAbbreviationContext editor (CompletionContext.position ctx) = Some c /\
             extract editor (CompletionContext.position ctx) (getConfig editor c) = None) ->
  (provideCompletionItems editor ctx w).1 = Normal []
  /\ after editor ctx w = w
  /\ getTracker editor (after editor ctx w) = (Normal None, after editor ctx w).
Proof.
  intros Hreason Habsent Hmiss. unfold after.
  rewrite provide_eq, (resolveTracker_absent _ _ _ Habsent), Hreason,
    extractAbbreviationTracking_eq. cbv zeta.
  assert (match getAbbreviationContext editor (CompletionContext.position ctx) with
          | Some c =>
              match extract editor (CompletionContext.position ctx) (getConfig editor c) with
              | Some abbr =>
                  (Normal (Some (startedTracker c
                     (getOutputOptions editor (ActivationContext.inline c))
                     (Extracted.start abbr) (Extracted.stop abbr))),
                   startedWorld editor (startedTracker c
                     (getOutputOptions editor (ActivationContext.inline c))
                     (Extracted.start abbr) (Extracted.stop abbr)) w)
              | None => (Normal None, w)
              end
          | None => (Normal None, w)
          end = (Normal None, w)) as ->.
  { destruct Hmiss as [->|(c & -> & ->)]; done. }
  rewrite getTracker_eq. cbn [fst snd]. by rewrite Habsent.
Qed.

(** C10, success preserves the tracker.  On a request with a live tracker
    whose tracked text expands under both configurations, [stopTracking] is
    not called, the store is untouched and [getTracker] still returns that
    tracker, wherever the caret is. *)
Theorem success_preserves_tracker editor ctx w tr (snippet preview : jsstring) :
  slot (editorId editor) (registry w) = Some tr ->
  expand (trackedText editor tr) (getConfig editor (Tracker.asContext tr))
    = Normal snippet ->
  expand (trackedText editor tr)
    (getPreviewConfig (getConfig editor (Tracker.asContext tr))) = Normal preview ->
  stopCalled editor ctx w = false
  /\ newCalls editor ctx w = []
  /\ after editor ctx w = w
  /\ getTracker editor (after editor ctx w) = (Normal (Some tr), after editor ctx w).
Proof.
  intros Hlive Hsnippet Hpreview.
  assert (expansions editor tr = Some (snippet, preview)) as Hboth
    by by apply expansions_Some.
  assert (after editor ctx w = w) as Hafter.
  { unfold after. by rewrite (request_live _ _ _ _ Hlive), Hboth. }
  assert (newCalls editor ctx w = []) as Hcalls.
  { apply newCalls_app. by rewrite Hafter, app_nil_r. }
  unfold stopCalled. rewrite Hcalls, Hafter, getTracker_eq, Hlive. done.
Qed.

(** C2, implicit trigger precision, amended: on an implicit request with
    tracking allowed and no live tracker for the editor, tracking starts
    exactly when the last two characters of the line match the trigger and
    an activation context resolves at the position; the range then starts at
    the position minus one. *)
Theorem implicit_trigger_precision editor ctx w :
  slot (editorId editor) (registry w) = None ->
  CompletionContext.reason ctx = Character ->
  allowTracking editor = true ->
  (is_Some (startedRange editor ctx w) <->
   triggerMatches (CompletionContext.line ctx) /\
   is_Some (getAbbreviationContext editor (CompletionContext.position ctx)))
  /\ forall s e, startedRange editor ctx w = Some (s, e) ->
                 s = CompletionContext.position ctx - 1.
Proof.
  intros Habsent Hreason Hallow.
  rewrite (startedRange_absent _ _ _ Habsent),
    (resolveTracker_implicit _ _ _ Habsent Hreason Hallow). cbv zeta.
  rewrite <- trigger_words.
  destruct (Regex.test _ _) eqn:Htest.
  - destruct (trigger_last _ Htest) as (ch & -> & _).
    destruct (getAbbreviationContext _ _) as [c|].
    + split; [split; eauto|]. by intros s e [= <- _].
    + split; [|done]. split; [by intros [? ?]|]. by intros [_ [? ?]].
  - split; [|done]. split; [by intros [? ?]|]. by intros [? _].
Qed.

(** C3, bracket-pairing extension.  When an implicit request starts
    tracking and the character that triggered it is ['('], ['['] or ['{'],
    the range ends one past the position if the document character after
    the caret is the matching closing bracket, and at the position
    otherwise. *)
Theorem bracket_pairing_extension editor ctx w (s e : Z) (ch closer : char16) :
  CompletionContext.reason ctx = Character ->
  startedRange editor ctx w = Some (s, e) ->
  last (CompletionContext.line ctx) = Some ch ->
  (ch = 40%N /\ closer = 41%N) \/ (ch = 91%N /\ closer = 93%N)
    \/ (ch = 123%N /\ closer = 125%N) ->
  (charAt (TextDocument.text (document editor)) (CompletionContext.position ctx)
     = Some closer -> e = CompletionContext.position ctx + 1)
  /\ (charAt (TextDocument.text (document editor)) (CompletionContext.position ctx)
       <> Some closer -> e = CompletionContext.position ctx).
Proof.
  intros Hreason Hstarted Hlast Hpair.
  assert (closing ch = Some closer) as Hclosing.
  { destruct Hpair as [[-> ->]|[[-> ->]|[-> ->]]]; done. }
  destruct (slot (editorId editor) (registry w)) as [tr|] eqn:Hslot.
  { unfold startedRange in Hstarted.
    by rewrite (firstStart_stops _ _ (newCalls_live _ ctx _ _ Hslot)) in Hstarted. }
  rewrite (startedRange_absent _ _ _ Hslot) in Hstarted.
  destruct (allowTracking editor) eqn:Hallow.
  - rewrite (resolveTracker_implicit _ _ _ Hslot Hreason Hallow) in Hstarted.
    cbv zeta in Hstarted. rewrite Hlast in Hstarted.
    destruct (Regex.test _ _); [|done].
    destruct (getAbbreviationContext _ _) as [c|]; [|done].
    injection Hstarted as _ <-. unfold pairedEnd. rewrite Hclosing.
    case_decide; split; done.
  - by rewrite (resolveTracker_absent _ _ _ Hslot), Hreason, Hallow in Hstarted.
Qed.

(** C6, tracker reuse and no double tracking.  On a request with a live
    tracker the first half returns that tracker and leaves the store alone,
    and the request makes no [startTracking] call; after any sequence of
    completion requests and handler events from the empty store an editor
    has at most one live tracker. *)
Theorem tracker_reuse editor ctx w tr (evs : list Event) (k : nat) :
  slot (editorId editor) (registry w) = Some tr ->
  resolveTracker editor ctx w = (Normal (Some tr), w)
  /\ startedRange editor ctx w = None
  /\ Forall (fun c => isStop c = true) (newCalls editor ctx w)
  /\ (length (liveTrackers k (run evs initial)) <= 1)%nat.
Proof.
  intros Hlive. pose proof (newCalls_live _ ctx _ _ Hlive) as Hcalls.
  split; [by apply resolveTracker_live|].
  split; [by apply firstStart_stops|].
  split; [done|].
  unfold liveTrackers. rewrite length_fmap.
  apply NoDup_one_entry, run_NoDup. cbn. constructor.
Qed.

(** C7, configuration stability, amended.  For the tracker [tr] that a
    request on [editor0] has started, wherever its range is moved to, the
    configuration of a request on [editor], the surface in a later state,
    has the syntax kind, the syntax string and the context payload of the
    first; its options are the output options of [editor] for the recorded
    inline flag, read anew, while the tracker records those of [editor0];
    the two configurations and the recorded options agree when the output
    options of the two states do. *)
Theorem configuration_stable_up_to_options editor0 ctx0 w0 editor tr (r : Z * Z) :
  slot (editorId editor0) (registry w0) = None ->
  slot (editorId editor0) (registry (after editor0 ctx0 w0)) = Some tr ->
  let config0 := getConfig editor0 (Tracker.asContext tr) in
  let config := getConfig editor (Tracker.asContext (moveRange r tr)) in
  UserConfig.type config = UserConfig.type config0
  /\ UserConfig.syntax config = UserConfig.syntax config0
  /\ UserConfig.context config = UserConfig.context config0
  /\ UserConfig.options config = getOutputOptions editor (Tracker.inline tr)
  /\ Tracker.options (moveRange r tr)
     = Some (getOutputOptions editor0 (Tracker.inline tr))
  /\ (getOutputOptions editor (Tracker.inline tr)
      = getOutputOptions editor0 (Tracker.inline tr) ->
      config = config0 /\ optionsAsRecorded editor (moveRange r tr)).
Proof.
  intros Habsent Hafter.
  destruct (after_started _ _ _ _ Habsent Hafter) as (c & s & e & ->).
  cbv zeta. repeat (split; [done|]).
  rewrite startedTracker_inline.
  split; [done|]. intros Hsame.
  unfold optionsAsRecorded, getConfig, moveRange, Tracker.asContext.
  cbn [UserConfig.options Tracker.syntax Tracker.context Tracker.inline Tracker.options
       ActivationContext.syntax ActivationContext.context ActivationContext.inline].
  rewrite !startedTracker_inline, Hsame. done.
Qed.

(** C8, preview configuration frame.  The preview configuration of a
    configuration has its syntax kind, syntax string and context payload;
    its options are the same but for the field renderer, which returns the
    placeholder it is given, the indent, two spaces, and the base indent,
    empty.  The insertion text of a candidate is the expansion under the
    normal configuration, its documentation the expansion under the preview
    configuration. *)
Theorem preview_configuration_frame
    (config : UserConfig.t P) editor ctx w (item : CompletionItem.t) :
  (provideCompletionItems editor ctx w).1 = Normal [item] ->
  UserConfig.type (getPreviewConfig config) = UserConfig.type config
  /\ UserConfig.syntax (getPreviewConfig config) = UserConfig.syntax config
  /\ UserConfig.context (getPreviewConfig config) = UserConfig.context config
  /\ UserConfig.options (getPreviewConfig config) !! "output.field"%string
     = Some (OField previewField)
  /\ (forall index placeholder, previewField index placeholder = placeholder)
  /\ UserConfig.options (getPreviewConfig config) !! "output.indent"%string
     = Some (OText (str "  "))
  /\ UserConfig.options (getPreviewConfig config) !! "output.baseIndent"%string
     = Some (OText [])
  /\ (forall k : string,
        k <> "output.field"%string -> k <> "output.indent"%string ->
        k <> "output.baseIndent"%string ->
        UserConfig.options (getPreviewConfig config) !! k
        = UserConfig.options config !! k)
  /\ exists tr snippet preview,
       expand (trackedText editor tr) (getConfig editor (Tracker.asContext tr))
         = Normal snippet
       /\ expand (trackedText editor tr)
            (getPreviewConfig (getConfig editor (Tracker.asContext tr)))
         = Normal preview
       /\ CompletionItem.insertText item = Some snippet
       /\ CompletionItem.documentation item = Some preview.
Proof.
  intros Hitem. do 3 (split; [done|]).
  unfold getPreviewConfig at 1 2 3 4. cbn [UserConfig.options].
  split; [by rewrite 2!lookup_insert_ne, lookup_insert_eq by done|].
  split; [done|].
  split; [by rewrite lookup_insert_ne, lookup_insert_eq by done|].
  split; [by rewrite lookup_insert_eq|].
  split; [intros k Hfield Hindent Hbase; by rewrite !lookup_insert_ne by done|].
  rewrite provide_eq in Hitem.
  destruct (resolveTracker editor ctx w) as [[[tr|]|err] w'] eqn:Hres; [|done..].
  exists tr.
  destruct (completeTracker_cases editor ctx tr w')
    as [(s & p & Hboth & Hc)|[(_ & _ & Hc)|(_ & _ & Hc)]];
    rewrite Hc in Hitem; [|done..].
  injection Hitem as <-. apply expansions_Some in Hboth as [Hs Hp].
  exists s, p. done.
Qed.

End Claims.

(** * The claims on the demo host *)

(** Tracking never starts on a brace: the trigger pattern does not accept
    it, so the ['{'] entry of [pairs] is not used by the implicit path. *)
Lemma brace_is_no_trigger : Regex.abbr_start 123%N = false.
Proof. reflexivity. Qed.

(** C1 on [ul>], tracked over its three characters, with the caret at the
    end: the tracker is disposed of. *)
Lemma disposal_exactness_witness :
  getTracker Demo.ul_child
    (after Demo.ul_child (Demo.typed 3 "ul>") (Demo.tracking Demo.ul_child (0, 3)))
  = (Normal None,
     after Demo.ul_child (Demo.typed 3 "ul>") (Demo.tracking Demo.ul_child (0, 3))).
Proof.
  refine (proj1 (proj2 (disposal_exactness Demo.ul_child (Demo.typed 3 "ul>")
            (Demo.tracking Demo.ul_child (0, 3)) (Demo.tracked Demo.ul_child (0, 3))
            _ _)) _).
  - reflexivity.
  - left. eexists. vm_compute. reflexivity.
  - reflexivity.
Defined.

(** C4 on [div], tracked over its three characters. *)
Lemma candidate_fidelity_witness :
  exists item,
    (provideCompletionItems Demo.div (Demo.typed 3 "div")
       (Demo.tracking Demo.div (0, 3))).1 = Normal [item]
    /\ CompletionItem.label item = str "div"
    /\ CompletionItem.insertText item = Some (str "<div>${content}</div>")
    /\ CompletionItem.documentation item = Some (str "<div>content</div>")
    /\ CompletionItem.tokenize item = true
    /\ CompletionItem.range item = Some (Range.mk 0 3)
    /\ CompletionItem.detail item = Some (str "Emmet").
Proof.
  refine (candidate_fidelity Demo.div (Demo.typed 3 "div")
            (Demo.tracking Demo.div (0, 3)) (Demo.tracked Demo.div (0, 3))
            (str "<div>${content}</div>") (str "<div>content</div>") _ _ _);
    vm_compute; reflexivity.
Defined.

(** C9 on a blank line: the context resolves, nothing is extracted. *)
Lemma extraction_miss_witness :
  (provideCompletionItems Demo.blank (Demo.invoked 2 "  ") initial).1 = Normal []
  /\ after Demo.blank (Demo.invoked 2 "  ") initial = initial
  /\ getTracker Demo.blank (after Demo.blank (Demo.invoked 2 "  ") initial)
     = (Normal None, after Demo.blank (Demo.invoked 2 "  ") initial).
Proof.
  refine (extraction_miss Demo.blank (Demo.invoked 2 "  ") initial _ _ _).
  - reflexivity.
  - reflexivity.
  - right. eexists. split; vm_compute; reflexivity.
Defined.

(** C10 on [div], tracked over its three characters. *)
Lemma success_preserves_tracker_witness :
  stopCalled Demo.div (Demo.typed 3 "div") (Demo.tracking Demo.div (0, 3)) = false
  /\ newCalls Demo.div (Demo.typed 3 "div") (Demo.tracking Demo.div (0, 3)) = []
  /\ after Demo.div (Demo.typed 3 "div") (Demo.tracking Demo.div (0, 3))
     = Demo.tracking Demo.div (0, 3)
  /\ getTracker Demo.div
       (after Demo.div (Demo.typed 3 "div") (Demo.tracking Demo.div (0, 3)))
     = (Normal (Some (Demo.tracked Demo.div (0, 3))),
        after Demo.div (Demo.typed 3 "div") (Demo.tracking Demo.div (0, 3))).
Proof.
  refine (success_preserves_tracker Demo.div (Demo.typed 3 "div")
            (Demo.tracking Demo.div (0, 3)) (Demo.tracked Demo.div (0, 3))
            (str "<div>${content}</div>") (str "<div>content</div>") _ _ _);
    vm_compute; reflexivity.
Defined.

(** C2 as stated fails on [ul>l] while [ul>l] is tracked: the line ends
    with ['>'] and a letter, a context resolves, and the tracker is reused,
    not started. *)
Lemma implicit_trigger_precision_counterexample :
  ~ implicitTriggerPrecision Demo.ul_l (Demo.typed 4 "ul>l")
      (Demo.tracking Demo.ul_l (0, 4)).
Proof.
  intros Hclaim. destruct (Hclaim eq_refl eq_refl) as [[_ Hstarts] _].
  destruct Hstarts as [range Hrange].
  - split; [by apply trigger_words|]. by eexists.
  - vm_compute in Hrange. discriminate.
Qed.

(** C2, amended, on a [d] typed after a space. *)
Lemma implicit_trigger_precision_witness :
  (is_Some (startedRange Demo.spaced (Demo.typed 2 " d") initial) <->
   triggerMatches (str " d") /\ is_Some (getAbbreviationContext Demo.spaced 2))
  /\ forall s e, startedRange Demo.spaced (Demo.typed 2 " d") initial = Some (s, e) ->
                 s = 2 - 1.
Proof.
  refine (implicit_trigger_precision Demo.spaced (Demo.typed 2 " d") initial _ _ _);
    reflexivity.
Defined.

(** C3 on a parenthesis that the editor has closed. *)
Lemma bracket_pairing_extension_witness :
  (charAt (str " ()") 2 = Some 41%N -> 3 = 2 + 1)
  /\ (charAt (str " ()") 2 <> Some 41%N -> 3 = 2).
Proof.
  refine (bracket_pairing_extension Demo.group (Demo.typed 2 " (") initial 1 3 40%N 41%N
            _ _ _ _).
  - reflexivity.
  - vm_compute. reflexivity.
  - reflexivity.
  - left. split; reflexivity.
Defined.

(** C6 on [div], tracked over its three characters, and on the events
    that type and extend it. *)
Lemma tracker_reuse_witness :
  resolveTracker Demo.div (Demo.typed 3 "div") (Demo.tracking Demo.div (0, 3))
  = (Normal (Some (Demo.tracked Demo.div (0, 3))), Demo.tracking Demo.div (0, 3))
  /\ startedRange Demo.div (Demo.typed 3 "div") (Demo.tracking Demo.div (0, 3)) = None
  /\ Forall (fun c => isStop c = true)
       (newCalls Demo.div (Demo.typed 3 "div") (Demo.tracking Demo.div (0, 3)))
  /\ (length (liveTrackers 0 (run Demo.session initial)) <= 1)%nat.
Proof.
  refine (tracker_reuse Demo.div (Demo.typed 3 "div") (Demo.tracking Demo.div (0, 3))
            (Demo.tracked Demo.div (0, 3)) Demo.session 0%nat _).
  reflexivity.
Defined.

(** C7 as stated fails when the indentation of the line changes from a
    space to a tab while its [d] is tracked: the options of the second
    request have the tab as base indent, the tracker has recorded the
    space. *)
Lemma configuration_stable_counterexample :
  ~ configurationStable Demo.spaced (Demo.typed 2 " d") initial Demo.tabbed.
Proof.
  intros Hclaim.
  destruct (Hclaim (Demo.tracked Demo.spaced (1, 2)) eq_refl eq_refl) as [_ Hrecorded].
  unfold optionsAsRecorded in Hrecorded.
  apply (f_equal (fun o => (.!! "output.baseIndent"%string) <$> o)) in Hrecorded.
  vm_compute in Hrecorded. discriminate.
Qed.

(** C7, amended, on the same two states. *)
Lemma configuration_stable_up_to_options_witness :
  UserConfig.syntax (getConfig Demo.tabbed
      (Tracker.asContext (moveRange (1, 3) (Demo.tracked Demo.spaced (1, 2)))))
  = UserConfig.syntax (getConfig Demo.spaced
      (Tracker.asContext (Demo.tracked Demo.spaced (1, 2)))).
Proof.
  refine (proj1 (proj2 (configuration_stable_up_to_options
            Demo.spaced (Demo.typed 2 " d") initial Demo.tabbed
            (Demo.tracked Demo.spaced (1, 2)) (1, 3) _ _))).
  - reflexivity.
  - vm_compute. reflexivity.
Defined.

(** C8 on the candidate for [div]. *)
Lemma preview_configuration_frame_witness :
  UserConfig.options
    (getPreviewConfig (getConfig Demo.div (Tracker.asContext (Demo.tracked Demo.div (0, 3)))))
    !! "output.indent"%string
  = Some (OText (str "  ")).
Proof.
  refine (proj1 (proj2 (proj2 (proj2 (proj2 (proj2 (preview_configuration_frame
            (getConfig Demo.div (Tracker.asContext (Demo.tracked Demo.div (0, 3))))
            Demo.div (Demo.typed 3 "div") (Demo.tracking Demo.div (0, 3))
            (candidate Demo.div (Demo.tracked Demo.div (0, 3))
               (str "<div>${content}</div>") (str "<div>content</div>"))
            _))))))).
  vm_compute. reflexivity.
Defined.

(** * More of the provider *)

Section Paths.
Context {P E : Type} `{!Host P E}.
Implicit Types (editor : E) (ctx : CompletionContext.t) (w : World P)
  (tr : Tracker.t P).

(** A started tracker read as an activation context is the context it was
    started with. *)
Lemma asContext_started (c : ActivationContext.t P) (o : Options) (s e : Z) :
  Tracker.asContext (startedTracker c o s e) = c.
Proof. by destruct c as [[?|] [?|] [?|]]. Qed.

Lemma slot_startedWorld_ne editor tr w (k : nat) :
  k <> editorId editor ->
  slot k (registry (startedWorld editor tr w)) = slot k (registry w).
Proof.
  intros Hne. cbn [startedWorld registry slot].
  rewrite decide_False by done. apply slot_drop_slot_ne. congruence.
Qed.

(** A request without a live tracker whose first half returns a tracker. *)
Lemma request_fresh editor ctx w tr :
  slot (editorId editor) (registry w) = None ->
  (resolveTracker editor ctx w).1 = Normal (Some tr) ->
  provideCompletionItems editor ctx w
  = completeTracker editor ctx tr (startedWorld editor tr w).
Proof.
  intros Habsent Hres. rewrite provide_eq.
  destruct (resolveTracker editor ctx w) as [out w'] eqn:Heq.
  cbn [fst] in Hres. subst out.
  by destruct (resolveTracker_started _ _ _ _ _ Habsent Heq) as [-> _].
Qed.

(** A request whose first half returns no tracker. *)
Lemma request_none editor ctx w :
  (resolveTracker editor ctx w).1 = Normal None ->
  provideCompletionItems editor ctx w = (Normal [], w).
Proof.
  intros Hres. rewrite provide_eq.
  destruct (resolveTracker_cases editor ctx w)
    as [(tr & _ & Heq)|[(_ & Heq)|(tr & _ & Heq)]]; rewrite Heq in Hres |- *; done.
Qed.

(** X1.  An explicit invocation without a live tracker starts tracking over
    the range that [extract] returns for the configuration of the resolved
    context, whatever the line is and whether or not [allowTracking] holds;
    the tracker carries the context and the output options of the editor,
    and the request returns its candidate or nothing. *)
Theorem explicit_extraction_starts editor ctx w
    (c : ActivationContext.t P) (abbr : Extracted.t) :
  CompletionContext.reason ctx = Invoke ->
  slot (editorId editor) (registry w) = None ->
  getAbbreviationContext editor (CompletionContext.position ctx) = Some c ->
  extract editor (CompletionContext.position ctx) (getConfig editor c) = Some abbr ->
  let tr := startedTracker c (getOutputOptions editor (ActivationContext.inline c))
              (Extracted.start abbr) (Extracted.stop abbr) in
  startedRange editor ctx w = Some (Extracted.start abbr, Extracted.stop abbr)
  /\ resolveTracker editor ctx w = (Normal (Some tr), startedWorld editor tr w)
  /\ (provideCompletionItems editor ctx w).1
     = match expansions editor tr with
       | Some (snippet, preview) => Normal [candidate editor tr snippet preview]
       | None => Normal []
       end.
Proof.
  intros Hreason Habsent Hctx Hextract tr.
  assert (resolveTracker editor ctx w = (Normal (Some tr), startedWorld editor tr w))
    as Hres.
  { rewrite (resolveTracker_absent _ _ _ Habsent), Hreason,
      extractAbbreviationTracking_eq. cbv zeta. by rewrite Hctx, Hextract. }
  split; [|split; [done|]].
  - by rewrite (startedRange_absent _ _ _ Habsent), Hres.
  - rewrite provide_eq, Hres, completeTracker_eq.
    destruct (expansions editor tr) as [[snippet preview]|]; [done|].
    by case_decide.
Qed.

(** X2.  An implicit request without a live tracker does nothing when
    tracking is not allowed, when the trigger does not match or when no
    activation context resolves: no candidate, and the store with its
    calls is as before. *)
Theorem implicit_miss editor ctx w :
  CompletionContext.reason ctx = Character ->
  slot (editorId editor) (registry w) = None ->
  (allowTracking editor = false \/
   ~ triggerMatches (CompletionContext.line ctx) \/
   getAbbreviationContext editor (CompletionContext.position ctx) = None) ->
  provideCompletionItems editor ctx w = (Normal [], w)
  /\ newCalls editor ctx w = [].
Proof.
  intros Hreason Habsent Hmiss.
  assert (provideCompletionItems editor ctx w = (Normal [], w)) as Hreq.
  { apply request_none. rewrite (resolveTracker_absent _ _ _ Habsent), Hreason.
    destruct (allowTracking editor) eqn:Hallow; [|done].
    rewrite startAbbreviationTracking_eq. cbv zeta.
    destruct (Regex.test _ _) eqn:Htest; [|done].
    destruct Hmiss as [?|[Hno| ->]]; [done| |done].
    by apply trigger_words in Htest. }
  split; [done|]. apply newCalls_app. unfold after. by rewrite Hreq, app_nil_r.
Qed.

(** X3.  The disposal decision is the same for a tracker started by the
    request itself: when its text fails to expand the request returns no
    candidate; with the position at the end of its range the tracker is
    started and stopped within the request and the editor is left without
    one; with the position elsewhere the tracker stays. *)
Theorem fresh_tracker_disposal editor ctx w tr :
  slot (editorId editor) (registry w) = None ->
  (resolveTracker editor ctx w).1 = Normal (Some tr) ->
  expansionFails editor tr ->
  (provideCompletionItems editor ctx w).1 = Normal []
  /\ (CompletionContext.position ctx = (Tracker.range tr).2 ->
      slot (editorId editor) (registry (after editor ctx w)) = None
      /\ newCalls editor ctx w
         = [StartTracking (editorId editor) (Tracker.range tr).1 (Tracker.range tr).2;
            StopTracking (editorId editor)])
  /\ (CompletionContext.position ctx <> (Tracker.range tr).2 ->
      slot (editorId editor) (registry (after editor ctx w)) = Some tr
      /\ newCalls editor ctx w
         = [StartTracking (editorId editor) (Tracker.range tr).1 (Tracker.range tr).2]).
Proof.
  intros Habsent Hres Hfails%expansions_None.
  pose proof (request_fresh _ _ _ _ Habsent Hres) as Hreq.
  rewrite completeTracker_eq, Hfails in Hreq.
  case_decide as Hpos; (split; [by rewrite Hreq|]); split; intros Hpos'; try done.
  - split.
    + unfold after. rewrite Hreq. cbn [snd stoppedWorld registry].
      apply slot_drop_slot.
    + apply newCalls_app. unfold after. rewrite Hreq.
      cbn [snd stoppedWorld startedWorld calls]. by rewrite <- app_assoc.
  - split.
    + unfold after. rewrite Hreq. cbn [snd startedWorld registry]. apply slot_head.
    + apply newCalls_app. unfold after. by rewrite Hreq.
Qed.

(** X4.  A request on an editor leaves the trackers of the other editors
    as they are. *)
Theorem other_editors_untouched editor ctx w (k : nat) :
  k <> editorId editor ->
  slot k (registry (after editor ctx w)) = slot k (registry w).
Proof.
  intros Hne. unfold after. rewrite provide_eq.
  assert (forall w', slot k (registry (stoppedWorld editor w')) = slot k (registry w'))
    as Hstop.
  { intros w'. cbn [stoppedWorld registry]. apply slot_drop_slot_ne. congruence. }
  destruct (resolveTracker_cases editor ctx w)
    as [(tr & _ & ->)|[(_ & ->)|(tr & _ & ->)]]; [| done |].
  - destruct (completeTracker_cases editor ctx tr w)
      as [(s & p & _ & ->)|[(_ & _ & ->)|(_ & _ & ->)]]; cbn [snd]; auto.
  - destruct (completeTracker_cases editor ctx tr (startedWorld editor tr w))
      as [(s & p & _ & ->)|[(_ & _ & ->)|(_ & _ & ->)]]; cbn [snd];
      rewrite ?Hstop; by apply slot_startedWorld_ne.
Qed.

(** What an implicit request without a live tracker gets from its
    first half, when it gets a tracker. *)
Lemma implicit_fresh editor ctx w tr :
  CompletionContext.reason ctx = Character ->
  slot (editorId editor) (registry w) = None ->
  (resolveTracker editor ctx w).1 = Normal (Some tr) ->
  exists c ch,
    allowTracking editor = true
    /\ Regex.test triggerPattern (slice_last 2 (CompletionContext.line ctx)) = true
    /\ getAbbreviationContext editor (CompletionContext.position ctx) = Some c
    /\ last (CompletionContext.line ctx) = Some ch
    /\ tr = startedTracker c (getOutputOptions editor (ActivationContext.inline c))
              (CompletionContext.position ctx - 1)
              (pairedEnd (TextDocument.text (document editor))
                 (CompletionContext.position ctx) ch).
Proof.
  intros Hreason Habsent Hres.
  destruct (allowTracking editor) eqn:Hallow.
  - rewrite (resolveTracker_implicit _ _ _ Habsent Hreason Hallow) in Hres.
    cbv zeta in Hres.
    destruct (Regex.test _ _) eqn:Htest; [|done].
    destruct (getAbbreviationContext _ _) as [c|]; [|done].
    destruct (last _) as [ch|]; [|done].
    injection Hres as <-. exists c, ch. done.
  - by rewrite (resolveTracker_absent _ _ _ Habsent), Hreason, Hallow in Hres.
Qed.

Lemma pairedEnd_cases (doc : jsstring) (pos : Z) (ch : char16) :
  pairedEnd doc pos ch = pos \/
  (pairedEnd doc pos ch = pos + 1 /\
   exists closer, closing ch = Some closer /\ charAt doc pos = Some closer).
Proof.
  unfold pairedEnd. destruct (closing ch) as [closer|]; [|by left].
  case_decide; [right; eauto|by left].
Qed.

(** X5.  The calls of a request into the tracker module: at most one
    [startTracking], then at most one [stopTracking], both for the editor
    of the request. *)
Theorem request_calls_shape editor ctx w :
  newCalls editor ctx w
  = match startedRange editor ctx w with
    | Some (s, e) => [StartTracking (editorId editor) s e]
    | None => []
    end
    ++ (if stopCalled editor ctx w then [StopTracking (editorId editor)] else []).
Proof.
  assert (forall delta, calls (after editor ctx w) = calls w ++ delta ->
            delta = match firstStart (editorId editor) delta with
                    | Some (s, e) => [StartTracking (editorId editor) s e]
                    | None => []
                    end
                    ++ (if existsb isStop delta then [StopTracking (editorId editor)] else []) ->
            newCalls editor ctx w
            = match startedRange editor ctx w with
              | Some (s, e) => [StartTracking (editorId editor) s e]
              | None => []
              end
              ++ (if stopCalled editor ctx w then [StopTracking (editorId editor)] else []))
    as Hshape.
  { intros delta Hcalls Hdelta. unfold startedRange, stopCalled.
    by rewrite (newCalls_app _ _ _ _ Hcalls). }
  unfold after in Hshape. rewrite provide_eq in Hshape.
  destruct (resolveTracker_cases editor ctx w)
    as [(tr & _ & Hres)|[(_ & Hres)|(tr & _ & Hres)]]; rewrite Hres in Hshape.
  - destruct (completeTracker_cases editor ctx tr w)
      as [(s & p & _ & Hc)|[(_ & _ & Hc)|(_ & _ & Hc)]]; rewrite Hc in Hshape.
    + apply (Hshape []); [by rewrite app_nil_r|done].
    + apply (Hshape []); [by rewrite app_nil_r|done].
    + by apply (Hshape [StopTracking (editorId editor)]).
  - apply (Hshape []); [by rewrite app_nil_r|done].
  - destruct (completeTracker_cases editor ctx tr (startedWorld editor tr w))
      as [(s & p & _ & Hc)|[(_ & _ & Hc)|(_ & _ & Hc)]]; rewrite Hc in Hshape.
    + apply (Hshape [StartTracking (editorId editor)
                       (Tracker.range tr).1 (Tracker.range tr).2]); [done|].
      cbn. rewrite decide_True by done. by destruct (Tracker.range tr).
    + apply (Hshape [StartTracking (editorId editor)
                       (Tracker.range tr).1 (Tracker.range tr).2]); [done|].
      cbn. rewrite decide_True by done. by destruct (Tracker.range tr).
    + apply (Hshape [StartTracking (editorId editor)
                       (Tracker.range tr).1 (Tracker.range tr).2;
                     StopTracking (editorId editor)]).
      * cbn [snd stoppedWorld startedWorld calls]. by rewrite <- app_assoc.
      * cbn. rewrite decide_True by done. by destruct (Tracker.range tr).
Qed.

(** X6.  A request returns a candidate exactly when its tracker, live or
    just started, spans a text that expands under the normal and the
    preview configuration; the candidate is the one built from that text
    and the two expansions. *)
Theorem candidate_iff_expands editor ctx w (item : CompletionItem.t) :
  (provideCompletionItems editor ctx w).1 = Normal [item] <->
  exists tr snippet preview,
    (resolveTracker editor ctx w).1 = Normal (Some tr)
    /\ expand (trackedText editor tr) (getConfig editor (Tracker.asContext tr))
       = Normal snippet
    /\ expand (trackedText editor tr)
         (getPreviewConfig (getConfig editor (Tracker.asContext tr))) = Normal preview
    /\ item = candidate editor tr snippet preview.
Proof.
  rewrite provide_eq.
  destruct (resolveTracker editor ctx w) as [[[tr|]|err] w'] eqn:Hres; cbn [fst].
  - destruct (completeTracker_cases editor ctx tr w')
      as [(s & p & Hboth & ->)|[(Hnone & _ & ->)|(Hnone & _ & ->)]]; cbn [fst].
    + split.
      * intros [= <-]. apply expansions_Some in Hboth as [? ?]. eauto 8.
      * intros (tr' & s' & p' & [= <-] & Hs & Hp & ->).
        assert (expansions editor tr = Some (s', p')) as Hboth'
          by by apply expansions_Some.
        congruence.
    + split; [done|]. intros (tr' & s' & p' & [= <-] & Hs & Hp & _).
      assert (expansions editor tr = Some (s', p')) by by apply expansions_Some.
      congruence.
    + split; [done|]. intros (tr' & s' & p' & [= <-] & Hs & Hp & _).
      assert (expansions editor tr = Some (s', p')) by by apply expansions_Some.
      congruence.
  - split; [done|]. by intros (? & ? & ? & ? & _).
  - split; [done|]. by intros (? & ? & ? & ? & _).
Qed.

(** X7.  A request that has returned a candidate can be repeated: while the
    editor is in the same state, any further request returns the same
    candidate, calls nothing and leaves the store as it is. *)
Theorem candidate_request_repeatable editor ctx ctx2 w (item : CompletionItem.t) :
  (provideCompletionItems editor ctx w).1 = Normal [item] ->
  provideCompletionItems editor ctx2 (after editor ctx w)
  = (Normal [item], after editor ctx w).
Proof.
  unfold after. rewrite (provide_eq editor ctx w).
  destruct (resolveTracker_cases editor ctx w)
    as [(tr & Hlive & ->)|[(_ & ->)|(tr & _ & ->)]]; [| done |].
  - destruct (completeTracker_cases editor ctx tr w)
      as [(s & p & Hboth & ->)|[(_ & _ & ->)|(_ & _ & ->)]]; [|done..].
    intros [= <-]. cbn [snd]. by rewrite (request_live _ _ _ _ Hlive), Hboth.
  - destruct (completeTracker_cases editor ctx tr (startedWorld editor tr w))
      as [(s & p & Hboth & ->)|[(_ & _ & ->)|(_ & _ & ->)]]; [|done..].
    intros [= <-]. cbn [snd].
    rewrite (request_live editor ctx2 (startedWorld editor tr w) tr), Hboth; [done|].
    cbn [startedWorld registry]. apply slot_head.
Qed.

(** X8.  After a request has disposed of a tracker, the next keystroke
    starts afresh: an implicit request on the same surface, in a state
    where tracking is allowed, the trigger matches and a context resolves,
    starts a tracker at its position minus one. *)
Theorem disposal_then_fresh_start editor ctx w tr (editor2 : E)
    (ctx2 : CompletionContext.t) (c : ActivationContext.t P) :
  slot (editorId editor) (registry w) = Some tr ->
  expansionFails editor tr ->
  CompletionContext.position ctx = (Tracker.range tr).2 ->
  editorId editor2 = editorId editor ->
  CompletionContext.reason ctx2 = Character ->
  allowTracking editor2 = true ->
  triggerMatches (CompletionContext.line ctx2) ->
  getAbbreviationContext editor2 (CompletionContext.position ctx2) = Some c ->
  exists e,
    startedRange editor2 ctx2 (after editor ctx w)
    = Some (CompletionContext.position ctx2 - 1, e)
    /\ (e = CompletionContext.position ctx2 \/ e = CompletionContext.position ctx2 + 1).
Proof.
  intros Hlive Hfails%expansions_None Hpos Hid Hreason Hallow Htrigger%trigger_words Hctx.
  assert (slot (editorId editor2) (registry (after editor ctx w)) = None) as Habsent.
  { unfold after. rewrite (request_live _ _ _ _ Hlive), Hfails, decide_True by done.
    cbn [snd stoppedWorld registry]. rewrite Hid. apply slot_drop_slot. }
  rewrite (startedRange_absent _ _ _ Habsent),
    (resolveTracker_implicit _ _ _ Habsent Hreason Hallow). cbv zeta.
  rewrite Htrigger, Hctx.
  destruct (trigger_last _ Htrigger) as (ch & -> & _).
  eexists. split; [done|].
  destruct (pairedEnd_cases (TextDocument.text (document editor2))
              (CompletionContext.position ctx2) ch) as [->|[-> _]]; auto.
Qed.

(** Reads an option of a preview configuration. *)
Ltac preview_lookup :=
  repeat (rewrite lookup_insert_eq || rewrite lookup_insert_ne by done).

(** X9.  Taking the preview of a preview configuration changes nothing. *)
Theorem preview_idempotent (config : UserConfig.t P) :
  getPreviewConfig (getPreviewConfig config) = getPreviewConfig config.
Proof.
  unfold getPreviewConfig. cbn [UserConfig.type UserConfig.syntax UserConfig.context
    UserConfig.options]. f_equal. apply map_eq. intros k.
  destruct (decide (k = "output.baseIndent"%string)) as [->|Hbase];
    [by preview_lookup|].
  destruct (decide (k = "output.indent"%string)) as [->|Hindent];
    [by preview_lookup|].
  destruct (decide (k = "output.field"%string)) as [->|Hfield];
    [by preview_lookup|].
  preview_lookup.
  done.
Qed.

(** X10.  The preview configuration does not depend on the field renderer,
    the indent and the base indent of the configuration it is taken from:
    two configurations that agree on everything else have the same
    preview. *)
Theorem preview_ignores_indentation (config1 config2 : UserConfig.t P) :
  UserConfig.type config1 = UserConfig.type config2 ->
  UserConfig.syntax config1 = UserConfig.syntax config2 ->
  UserConfig.context config1 = UserConfig.context config2 ->
  (forall k : string,
      k <> "output.field"%string -> k <> "output.indent"%string ->
      k <> "output.baseIndent"%string ->
      UserConfig.options config1 !! k = UserConfig.options config2 !! k) ->
  getPreviewConfig config1 = getPreviewConfig config2.
Proof.
  intros Htype Hsyntax Hcontext Hoptions. unfold getPreviewConfig.
  rewrite Htype, Hsyntax, Hcontext. f_equal. apply map_eq. intros k.
  destruct (decide (k = "output.baseIndent"%string)) as [->|Hbase];
    [by preview_lookup|].
  destruct (decide (k = "output.indent"%string)) as [->|Hindent];
    [by preview_lookup|].
  destruct (decide (k = "output.field"%string)) as [->|Hfield];
    [by preview_lookup|].
  preview_lookup.
  by apply Hoptions.
Qed.

Lemma closing_Some (ch closer : char16) :
  closing ch = Some closer ->
  (ch = 123%N /\ closer = 125%N) \/ (ch = 91%N /\ closer = 93%N)
  \/ (ch = 40%N /\ closer = 41%N).
Proof. unfold closing. repeat case_decide; naive_solver. Qed.

(** X11.  The tracker that a request starts carries the activation context
    resolved at the position of the request, unchanged, and the output
    options of the editor for the inline flag of that context: the
    configuration of its expansion is the configuration of that context,
    the one [extract] was called with on an explicit invocation; and it is
    the tracker of the editor once the first half of the request is
    done. *)
Theorem started_tracker_carries_context editor ctx w tr :
  slot (editorId editor) (registry w) = None ->
  (resolveTracker editor ctx w).1 = Normal (Some tr) ->
  exists c,
    getAbbreviationContext editor (CompletionContext.position ctx) = Some c
    /\ Tracker.asContext tr = c
    /\ Tracker.options tr = Some (getOutputOptions editor (ActivationContext.inline c))
    /\ getConfig editor (Tracker.asContext tr) = getConfig editor c
    /\ slot (editorId editor) (registry (resolveTracker editor ctx w).2) = Some tr
    /\ (CompletionContext.reason ctx = Invoke ->
        extract editor (CompletionContext.position ctx) (getConfig editor c)
        = Some (Extracted.mk (Tracker.range tr).1 (Tracker.range tr).2)).
Proof.
  intros Habsent Hres.
  assert (slot (editorId editor) (registry (resolveTracker editor ctx w).2) = Some tr)
    as Hslot.
  { destruct (resolveTracker editor ctx w) as [out w'] eqn:Heq.
    cbn [fst] in Hres. subst out.
    destruct (resolveTracker_started _ _ _ _ _ Habsent Heq) as [-> _].
    cbn [snd startedWorld registry]. apply slot_head. }
  destruct (CompletionContext.reason ctx) eqn:Hreason.
  - rewrite (resolveTracker_absent _ _ _ Habsent), Hreason,
      extractAbbreviationTracking_eq in Hres. cbv zeta in Hres.
    destruct (getAbbreviationContext _ _) as [c|]; [|done].
    destruct (extract _ _ _) as [[s e]|] eqn:Hextract; [|done].
    injection Hres as <-. exists c. rewrite asContext_started.
    repeat (split; [done|]). done.
  - destruct (implicit_fresh _ _ _ _ Hreason Habsent Hres)
      as (c & ch & _ & _ & Hctx & _ & ->).
    exists c. rewrite asContext_started. repeat (split; [done|]). done.
Qed.

(** X12.  The range an implicit request starts with: it begins one before
    the position, at the character that was typed, which is a letter,
    ['.'], ['#'], ['['] or ['('] and never ['{']; it ends at the position
    or, only after ['('] or ['['] followed in the document by its closing
    bracket, one past it. *)
Theorem implicit_range_shape editor ctx w (s e : Z) :
  CompletionContext.reason ctx = Character ->
  startedRange editor ctx w = Some (s, e) ->
  exists ch,
    last (CompletionContext.line ctx) = Some ch
    /\ abbreviationStart ch
    /\ ch <> 123%N
    /\ s = CompletionContext.position ctx - 1
    /\ (e = CompletionContext.position ctx \/
        e = CompletionContext.position ctx + 1
        /\ ((ch = 40%N /\
             charAt (TextDocument.text (document editor)) (CompletionContext.position ctx)
             = Some 41%N) \/
            (ch = 91%N /\
             charAt (TextDocument.text (document editor)) (CompletionContext.position ctx)
             = Some 93%N))).
Proof.
  intros Hreason Hstarted.
  destruct (slot (editorId editor) (registry w)) as [tr|] eqn:Hslot.
  { unfold startedRange in Hstarted.
    by rewrite (firstStart_stops _ _ (newCalls_live _ ctx _ _ Hslot)) in Hstarted. }
  rewrite (startedRange_absent _ _ _ Hslot) in Hstarted.
  destruct ((resolveTracker editor ctx w).1) as [[tr|]|err] eqn:Hres; [|done..].
  destruct (implicit_fresh _ _ _ _ Hreason Hslot Hres)
    as (c & ch & _ & Htest & _ & Hlast & ->).
  injection Hstarted as <- <-.
  destruct (trigger_last _ Htest) as (ch' & Hlast' & Hstart).
  assert (ch' = ch) as -> by congruence.
  exists ch. split; [done|]. split; [by apply abbr_start_spec|].
  split; [by intros ->|]. split; [done|].
  destruct (pairedEnd_cases (TextDocument.text (document editor))
              (CompletionContext.position ctx) ch)
    as [->|[-> (closer & Hclosing & Hnext)]]; [by left|].
  right. split; [done|].
  destruct (closing_Some _ _ Hclosing) as [[-> ->]|[[-> ->]|[-> ->]]]; auto.
  done.
Qed.

(** X13.  When an implicit request starts a tracker whose text does not
    expand, the tracker outlives the request exactly when its range was
    extended over a closing bracket; with no such bracket the editor is left
    without a tracker. *)
Theorem implicit_failure_survives_iff_paired editor ctx w tr :
  CompletionContext.reason ctx = Character ->
  slot (editorId editor) (registry w) = None ->
  (resolveTracker editor ctx w).1 = Normal (Some tr) ->
  expansionFails editor tr ->
  (slot (editorId editor) (registry (after editor ctx w)) = Some tr <->
   (Tracker.range tr).2 = CompletionContext.position ctx + 1)
  /\ (slot (editorId editor) (registry (after editor ctx w)) = None <->
      (Tracker.range tr).2 = CompletionContext.position ctx).
Proof.
  intros Hreason Habsent Hres Hfails%expansions_None.
  pose proof (request_fresh _ _ _ _ Habsent Hres) as Hreq.
  rewrite completeTracker_eq, Hfails in Hreq. unfold after. rewrite Hreq.
  destruct (implicit_fresh _ _ _ _ Hreason Habsent Hres)
    as (c & ch & _ & _ & _ & _ & Htr).
  assert ((Tracker.range tr).2 = CompletionContext.position ctx \/
          (Tracker.range tr).2 = CompletionContext.position ctx + 1) as Hend.
  { subst tr. cbn.
    destruct (pairedEnd_cases (TextDocument.text (document editor))
                (CompletionContext.position ctx) ch) as [->|[-> _]]; auto. }
  case_decide as Hpos; cbn [snd stoppedWorld startedWorld registry].
  - rewrite slot_drop_slot. split; split; try done; intros ?; lia.
  - rewrite slot_head. split; split; try done.
    intros _. destruct Hend; [congruence|done].
Qed.

End Paths.

(** * The diagnostics *)

Section TimerFacts.
Import Diagnostics.

(** The laps between consecutive readings add up to the time between the
    first and the last of them. *)
Lemma laps_telescope (clock : nat -> Z) (m n : nat) :
  foldr Z.add 0 (lap clock <$> seq m n) = clock (m + n)%nat - clock m.
Proof.
  revert m. induction n as [|n IH]; intros m; csimpl.
  - replace (m + 0)%nat with m by lia. lia.
  - rewrite IH. unfold lap. replace (S m + n)%nat with (m + S n)%nat by lia. lia.
Qed.

(** A timer whose last reading was reading [m] of the clock, marked with
    the labels in turn. *)
Lemma marked_eq (labels : list jsstring) (t : Timer.t) (d : Diag) (m : nat) :
  reads d = S m ->
  Timer.time t = readings d m ->
  marked labels (t, d)
  = (Timer.mk (readings d (m + length labels)%nat) (Timer.start t)
       (Timer.messages t
          ++ zip_with markLine labels (lap (readings d) <$> seq m (length labels))),
     mkDiag (readings d) (S m + length labels)%nat (console d)).
Proof.
  revert t d m. induction labels as [|label labels IH]; intros [time start messages]
    [clock n lines] m; cbn [reads readings console Timer.time Timer.start Timer.messages];
    intros -> ->.
  - cbn. rewrite app_nil_r. by replace (m + 0)%nat with m by lia.
  - change (marked (label :: labels) ?td) with (marked labels (mark td.1 label td.2)).
    unfold mark, Date_now.
    cbn [fst snd reads readings console Timer.time Timer.start Timer.messages].
    rewrite (IH _ _ (S m)) by done.
    cbn [reads readings console Timer.time Timer.start Timer.messages].
    rewrite <- app_assoc. cbn [app length seq fmap list_fmap zip_with].
    replace (S m + length labels)%nat with (m + S (length labels))%nat by lia.
    replace (S (S m) + length labels)%nat with (S m + S (length labels))%nat by lia.
    done.
Qed.

(** X14.  The report of a timer that was marked with [n] labels has one
    line for each label, in order, with the time since the previous mark or
    since the creation, and a last line with the time since the creation;
    it takes [n + 2] readings of the clock; the total is the sum of the
    times of the marks and of the time between the last mark and the
    report. *)
Theorem timer_report (labels : list jsstring) (d : Diag) :
  let n := length labels in
  let clock := readings d in
  let total := clock (reads d + n + 1)%nat - clock (reads d) in
  (report labels d).1.1
  = join [10%N]
      (zip_with markLine labels (lap clock <$> seq (reads d) n)
       ++ [str "Total time: " ++ showNumber total ++ str "ms"])
  /\ reads (report labels d).2 = (reads d + n + 2)%nat
  /\ total = foldr Z.add 0 (lap clock <$> seq (reads d) n) + lap clock (reads d + n).
Proof.
  cbv zeta. unfold report, measureTime, Date_now.
  rewrite (marked_eq labels _ _ (reads d)) by done.
  cbn [fst snd]. unfold dump, Date_now.
  cbn [reads readings console Timer.time Timer.start Timer.messages fst snd app].
  replace (S (reads d) + length labels)%nat with (reads d + length labels + 1)%nat by lia.
  split; [done|]. split; [lia|].
  rewrite laps_telescope. unfold lap.
  replace (S (reads d + length labels)) with (reads d + length labels + 1)%nat by lia.
  lia.
Qed.

End TimerFacts.

Section LoggedFacts.
Context {P E : Type} `{!Host P E}.
Variable showReason : CompletionReason -> jsstring.
Implicit Types (editor : E) (ctx : CompletionContext.t) (w : World P)
  (tr : Tracker.t P) (d : Diagnostics.Diag) (t : Diagnostics.Timer.t).

(** The first half of a request with its marks: the tracker and the store
    of the first half without them, and the timer marked with the stage
    that looked for a tracker. *)
Lemma resolve_logged editor ctx w d t :
  Diagnostics.resolveTracker editor ctx (slot (editorId editor) (registry w)) t (w, d)
  = match resolveTracker editor ctx w with
    | (Normal found, w') =>
        (Normal (found,
                 (Diagnostics.marked (Diagnostics.searchStage editor ctx w) (t, d)).1),
         (w', (Diagnostics.marked (Diagnostics.searchStage editor ctx w) (t, d)).2))
    | (Thrown err, w') => (Thrown err, (w', d))
    end.
Proof.
  unfold Diagnostics.resolveTracker, resolveTracker, bind, getTracker,
    Diagnostics.searchStage.
  destruct (slot (editorId editor) (registry w)) as [tr|]; [done|].
  destruct (CompletionContext.reason ctx).
  - unfold Diagnostics.bindL, Diagnostics.quiet, Diagnostics.diag, Diagnostics.retL.
    cbn [fst snd].
    by destruct (extractAbbreviationTracking editor ctx w) as [[found|err] w'].
  - destruct (allowTracking editor); [|done].
    unfold Diagnostics.bindL, Diagnostics.quiet, Diagnostics.diag, Diagnostics.retL.
    cbn [fst snd].
    by destruct (startAbbreviationTracking editor ctx w) as [[found|err] w'].
Qed.

(** The lines of the second half of a request for its tracker. *)
Lemma complete_logged editor ctx tr w d t :
  Diagnostics.completeTracker editor ctx (Some tr) t (w, d)
  = let lines :=
      Diagnostics.expandLine (trackedText editor tr)
      :: match expansions editor tr with
         | Some _ => []
         | None =>
             str "abbreviation is invalid"
             :: (if decide (CompletionContext.position ctx = (Tracker.range tr).2)
                 then [str "stop tracking"] else [])
         end in
    let marked :=
      Diagnostics.mark t (str "Create abbreviation completion")
        (Diagnostics.mkDiag (Diagnostics.readings d) (Diagnostics.reads d)
           (Diagnostics.console d ++ lines)) in
    match completeTracker editor ctx tr w with
    | (Normal items, w') => (Normal (items, marked.1), (w', marked.2))
    | (Thrown err, w') => (Thrown err, (w', d))
    end.
Proof.
  rewrite completeTracker_eq. cbv zeta.
  unfold Diagnostics.completeTracker, Diagnostics.try_catchL,
    Diagnostics.createExpandAbbreviationCompletion, Diagnostics.bindL, Diagnostics.log,
    Diagnostics.diag, Diagnostics.quiet, Diagnostics.retL, Diagnostics.console_log,
    lift, expansions, trackedText.
  cbn [fst snd Diagnostics.readings Diagnostics.reads Diagnostics.console].
  destruct (expand _ (getConfig _ _)) as [snippet|err1]; cbn.
  - destruct (expand _ (getPreviewConfig _)) as [preview|err2]; cbn; [done|].
    case_decide; cbn; by rewrite <- ?app_assoc.
  - case_decide; cbn; by rewrite <- ?app_assoc.
Qed.

(** Runs the timer and the console of a request on both sides. *)
Ltac logged_compute :=
  unfold Diagnostics.completeTracker, Diagnostics.report, Diagnostics.marked,
    Diagnostics.measureTime,
    Diagnostics.log, Diagnostics.diag, Diagnostics.mark, Diagnostics.dump,
    Diagnostics.Date_now, Diagnostics.console_log, Diagnostics.bindL, Diagnostics.retL;
  cbn [fst snd foldl app length Nat.add
         Diagnostics.readings Diagnostics.reads Diagnostics.console
         Diagnostics.Timer.time Diagnostics.Timer.start Diagnostics.Timer.messages];
  rewrite <- ?app_assoc; reflexivity.

(** A request with its diagnostics: what it returns and does to the store
    is what the request does without them; it reads the clock twice and
    once for each stage, and writes its transcript. *)
Lemma logged_request editor ctx w d :
  Diagnostics.provideCompletionItems showReason editor ctx (w, d)
  = ((provideCompletionItems editor ctx w).1,
     (after editor ctx w,
      Diagnostics.mkDiag (Diagnostics.readings d)
        (length (Diagnostics.stages editor ctx w) + 2 + Diagnostics.reads d)
        (Diagnostics.console d ++ Diagnostics.transcript showReason editor ctx w d))).
Proof.
  unfold Diagnostics.provideCompletionItems.
  unfold Diagnostics.bindL at 1 2 3.
  unfold Diagnostics.diag at 1, Diagnostics.quiet at 1, Diagnostics.log at 1,
    Diagnostics.diag at 1, Diagnostics.measureTime, Diagnostics.Date_now,
    Diagnostics.console_log, getTracker.
  cbn [fst snd Diagnostics.readings Diagnostics.reads Diagnostics.console].
  unfold Diagnostics.bindL at 1. rewrite resolve_logged.
  unfold Diagnostics.transcript, Diagnostics.returned, Diagnostics.stages,
    Diagnostics.candidateStage, Diagnostics.candidateLines, after.
  rewrite provide_eq.
  assert (Diagnostics.searchStage editor ctx w = [] \/
          exists label, Diagnostics.searchStage editor ctx w = [label]) as Hsearch.
  { unfold Diagnostics.searchStage.
    destruct (slot _ _); [by left|].
    destruct (CompletionContext.reason ctx); [right; eauto|].
    destruct (allowTracking editor); [right; eauto|by left]. }
  destruct (resolveTracker_cases editor ctx w)
    as [(tr & _ & ->)|[(_ & ->)|(tr & _ & ->)]]; cbn [fst snd].
  - unfold Diagnostics.bindL at 1. rewrite complete_logged. cbv zeta.
    destruct (completeTracker_cases editor ctx tr w)
      as [(s & p & -> & ->)|[(-> & Hpos & ->)|(-> & Hpos & ->)]];
      rewrite ?decide_True, ?decide_False by done;
      destruct Hsearch as [->|[label ->]];
      logged_compute.
  - destruct Hsearch as [->|[label ->]];
      logged_compute.
  - unfold Diagnostics.bindL at 1. rewrite complete_logged. cbv zeta.
    destruct (completeTracker_cases editor ctx tr (startedWorld editor tr w))
      as [(s & p & -> & ->)|[(-> & Hpos & ->)|(-> & Hpos & ->)]];
      rewrite ?decide_True, ?decide_False by done;
      destruct Hsearch as [->|[label ->]];
      logged_compute.
Qed.

(** X15.  The diagnostics of a request do not interfere with it: with
    the timer and the console lines, a request returns the same items and
    leaves the tracker store in the same state as without them; it reads
    the clock twice and once for each stage it marks, and adds its lines
    after those the console had. *)
Theorem diagnostics_do_not_interfere editor ctx w d :
  (Diagnostics.provideCompletionItems showReason editor ctx (w, d)).1
  = (provideCompletionItems editor ctx w).1
  /\ (Diagnostics.provideCompletionItems showReason editor ctx (w, d)).2.1
     = after editor ctx w
  /\ Diagnostics.readings
       (Diagnostics.provideCompletionItems showReason editor ctx (w, d)).2.2
     = Diagnostics.readings d
  /\ Diagnostics.reads
       (Diagnostics.provideCompletionItems showReason editor ctx (w, d)).2.2
     = (Diagnostics.reads d + length (Diagnostics.stages editor ctx w) + 2)%nat
  /\ Diagnostics.console
       (Diagnostics.provideCompletionItems showReason editor ctx (w, d)).2.2
     = Diagnostics.console d ++ Diagnostics.newLines showReason editor ctx w d.
Proof.
  unfold Diagnostics.newLines. rewrite logged_request.
  cbn [fst snd Diagnostics.readings Diagnostics.reads Diagnostics.console].
  rewrite drop_app_length. repeat (split; [done|]). split; [lia|done].
Qed.

(** X16.  The lines of a request: first the request line, with whether the
    editor had a tracker; when the request has a tracker, the text it
    expands and, if that fails, that the abbreviation is invalid and, if
    the tracker is disposed of, that tracking stops; then the report of a
    timer marked with the stages of the request; last the number of items
    returned. *)
Theorem request_transcript editor ctx w d :
  Diagnostics.newLines showReason editor ctx w d
  = Diagnostics.requestLine showReason ctx
      (bool_decide (is_Some (slot (editorId editor) (registry w))))
    :: match (resolveTracker editor ctx w).1 with
       | Normal (Some tr) =>
           Diagnostics.expandLine (trackedText editor tr)
           :: match expansions editor tr with
              | Some _ => []
              | None =>
                  str "abbreviation is invalid"
                  :: (if decide (CompletionContext.position ctx = (Tracker.range tr).2)
                      then [str "stop tracking"] else [])
              end
       | _ => []
       end
    ++ [(Diagnostics.report (Diagnostics.stages editor ctx w) d).1.1;
        str "return items: "
        ++ Diagnostics.showNumber
             (Z.of_nat (length (Diagnostics.returned editor ctx w)))].
Proof.
  unfold Diagnostics.newLines. rewrite logged_request.
  cbn [fst snd Diagnostics.console]. rewrite drop_app_length.
  reflexivity.
Qed.

(** A request calls [stopTracking] exactly when its tracker does not
    expand and ends at the position. *)
Lemma stopCalled_iff editor ctx w :
  stopCalled editor ctx w = true <->
  exists tr,
    (resolveTracker editor ctx w).1 = Normal (Some tr)
    /\ expansions editor tr = None
    /\ CompletionContext.position ctx = (Tracker.range tr).2.
Proof.
  unfold stopCalled.
  assert (forall delta, calls (after editor ctx w) = calls w ++ delta ->
            newCalls editor ctx w = delta) as Hdelta
    by (intros delta; apply newCalls_app).
  unfold after in Hdelta. rewrite provide_eq in Hdelta.
  destruct (resolveTracker_cases editor ctx w)
    as [(tr & _ & Hres)|[(_ & Hres)|(tr & _ & Hres)]]; rewrite Hres in Hdelta |- *;
    cbn [fst].
  - destruct (completeTracker_cases editor ctx tr w)
      as [(s & p & Hboth & Hc)|[(Hnone & Hpos & Hc)|(Hnone & Hpos & Hc)]];
      rewrite Hc in Hdelta.
    + rewrite (Hdelta []) by (by rewrite app_nil_r). split; [done|].
      intros (tr' & [= <-] & ? & _). congruence.
    + rewrite (Hdelta []) by (by rewrite app_nil_r). split; [done|].
      intros (tr' & [= <-] & _ & ?). done.
    + rewrite (Hdelta [StopTracking (editorId editor)]) by done.
      split; [|done]. intros _. eauto.
  - rewrite (Hdelta []) by (by rewrite app_nil_r). split; [done|].
    by intros (tr' & ? & _).
  - destruct (completeTracker_cases editor ctx tr (startedWorld editor tr w))
      as [(s & p & Hboth & Hc)|[(Hnone & Hpos & Hc)|(Hnone & Hpos & Hc)]];
      rewrite Hc in Hdelta.
    + rewrite (Hdelta [StartTracking (editorId editor)
                         (Tracker.range tr).1 (Tracker.range tr).2]) by done.
      split; [done|]. intros (tr' & [= <-] & ? & _). congruence.
    + rewrite (Hdelta [StartTracking (editorId editor)
                         (Tracker.range tr).1 (Tracker.range tr).2]) by done.
      split; [done|]. intros (tr' & [= <-] & _ & ?). done.
    + rewrite (Hdelta [StartTracking (editorId editor)
                         (Tracker.range tr).1 (Tracker.range tr).2;
                       StopTracking (editorId editor)]).
      * split; [|done]. intros _. eauto.
      * cbn [snd stoppedWorld startedWorld calls]. by rewrite <- app_assoc.
Qed.

Lemma differs_by_head (a b : jsstring) : head a <> head b -> a <> b.
Proof. congruence. Qed.

(** The report of the timer of a request begins with a capital letter:
    with the label of its first stage or with [Total time]. *)
Lemma report_head editor ctx w d :
  head (Diagnostics.report (Diagnostics.stages editor ctx w) d).1.1
  ∈ [Some 69%N; Some 83%N; Some 67%N; Some 84%N].
Proof.
  unfold Diagnostics.stages, Diagnostics.searchStage, Diagnostics.candidateStage.
  destruct (slot _ _); [|destruct (CompletionContext.reason ctx);
                          [|destruct (allowTracking editor)]];
    destruct ((resolveTracker editor ctx w).1) as [[?|]|?]; cbn [app];
    match goal with
    | |- head ?r ∈ _ =>
        first [ change (head r) with (Some 69%N)
              | change (head r) with (Some 83%N)
              | change (head r) with (Some 67%N)
              | change (head r) with (Some 84%N) ]
    end; set_solver.
Qed.

(** X17.  The console tells what the request did to its tracker: the line
    [stop tracking] is written exactly when the request calls
    [stopTracking], and the line [abbreviation is invalid] exactly when the
    request has a tracker whose text does not expand. *)
Theorem console_tells_disposal editor ctx w d :
  (str "stop tracking" ∈ Diagnostics.newLines showReason editor ctx w d <->
   stopCalled editor ctx w = true)
  /\ (str "abbreviation is invalid" ∈ Diagnostics.newLines showReason editor ctx w d <->
      exists tr, (resolveTracker editor ctx w).1 = Normal (Some tr)
                 /\ expansionFails editor tr).
Proof.
  assert (Diagnostics.newLines showReason editor ctx w d
          = Diagnostics.transcript showReason editor ctx w d) as ->.
  { unfold Diagnostics.newLines. rewrite logged_request.
    cbn [fst snd Diagnostics.console]. by rewrite drop_app_length. }
  rewrite stopCalled_iff. unfold Diagnostics.transcript, Diagnostics.candidateLines.
  pose proof (report_head editor ctx w d) as Hreport.
  assert (forall line : jsstring,
            head line = Some 115%N \/ head line = Some 97%N ->
            line ∈ [(Diagnostics.report (Diagnostics.stages editor ctx w) d).1.1;
                    Diagnostics.returnLine (Diagnostics.returned editor ctx w)] ->
            False) as Hlast.
  { intros line Hline [->|[->|[]%elem_of_nil]%elem_of_cons]%elem_of_cons.
    - destruct Hline as [Hline|Hline]; rewrite Hline in Hreport;
        repeat (apply elem_of_cons in Hreport as [Hreport|Hreport]; [done|]);
        by apply elem_of_nil in Hreport.
    - by destruct Hline. }
  assert (forall line : jsstring,
            head line = Some 115%N \/ head line = Some 97%N ->
            line <> Diagnostics.requestLine showReason ctx
                      (bool_decide (is_Some (slot (editorId editor) (registry w)))))
    as Hfirst.
  { intros line Hline ->. by destruct Hline. }
  split; rewrite elem_of_cons, elem_of_app.
  - split.
    + intros [Heq|[Hin|Hin]];
        [exfalso; eapply Hfirst; [|exact Heq]; by left
        | |exfalso; eapply Hlast; [|exact Hin]; by left].
      destruct ((resolveTracker editor ctx w).1) as [[tr|]|err];
        [|by apply elem_of_nil in Hin..].
      exists tr. split; [done|].
      apply elem_of_cons in Hin as [Heq|Hin]; [done|].
      destruct (expansions editor tr) as [[? ?]|]; [by apply elem_of_nil in Hin|].
      split; [done|].
      apply elem_of_cons in Hin as [Heq|Hin]; [done|].
      case_decide; [done|]. by apply elem_of_nil in Hin.
    + intros (tr & -> & -> & Hpos). right. left.
      rewrite decide_True by done. rewrite !elem_of_cons. auto.
  - split.
    + intros [Heq|[Hin|Hin]];
        [exfalso; eapply Hfirst; [|exact Heq]; by right
        | |exfalso; eapply Hlast; [|exact Hin]; by right].
      destruct ((resolveTracker editor ctx w).1) as [[tr|]|err];
        [|by apply elem_of_nil in Hin..].
      exists tr. split; [done|]. apply expansions_None.
      apply elem_of_cons in Hin as [Heq|Hin]; [done|].
      destruct (expansions editor tr) as [[? ?]|]; [by apply elem_of_nil in Hin|done].
    + intros (tr & -> & ->%expansions_None). right. left.
      rewrite !elem_of_cons. auto.
Qed.

End LoggedFacts.

(** * More of the provider, on the demo host *)

(** X1 on [div], invoked at its end. *)
Lemma explicit_extraction_starts_witness :
  startedRange Demo.div (Demo.invoked 3 "div") initial = Some (0, 3).
Proof.
  refine (proj1 (explicit_extraction_starts Demo.div (Demo.invoked 3 "div") initial
            Demo.html (Extracted.mk 0 3) _ _ _ _)); reflexivity.
Defined.

(** X2 on a [d] typed inside a word. *)
Lemma implicit_miss_witness :
  provideCompletionItems Demo.inside_word (Demo.typed 2 "xd") initial
  = (Normal [], initial)
  /\ newCalls Demo.inside_word (Demo.typed 2 "xd") initial = [].
Proof.
  refine (implicit_miss Demo.inside_word (Demo.typed 2 "xd") initial _ _ _).
  - reflexivity.
  - reflexivity.
  - right. left. intros Hmatch%trigger_words. vm_compute in Hmatch. discriminate.
Defined.

(** X3 on a parenthesis that stays open. *)
Lemma fresh_tracker_disposal_witness :
  slot 0%nat (registry (after Demo.open_group (Demo.typed 2 " (") initial)) = None
  /\ newCalls Demo.open_group (Demo.typed 2 " (") initial
     = [StartTracking 0 1 2; StopTracking 0].
Proof.
  refine (proj1 (proj2 (fresh_tracker_disposal Demo.open_group (Demo.typed 2 " (")
            initial (Demo.tracked Demo.open_group (1, 2)) _ _ _)) _).
  - reflexivity.
  - vm_compute. reflexivity.
  - left. eexists. vm_compute. reflexivity.
  - reflexivity.
Defined.

(** X4 on [div], for another editor. *)
Lemma other_editors_untouched_witness :
  slot 1%nat (registry (after Demo.div (Demo.typed 3 "div")
                          (Demo.tracking Demo.div (0, 3))))
  = slot 1%nat (registry (Demo.tracking Demo.div (0, 3))).
Proof.
  refine (other_editors_untouched Demo.div (Demo.typed 3 "div")
            (Demo.tracking Demo.div (0, 3)) 1%nat _).
  vm_compute. lia.
Defined.

(** X7 on a [d] typed after a space, then invoked. *)
Lemma candidate_request_repeatable_witness :
  provideCompletionItems Demo.spaced (Demo.invoked 2 " d")
    (after Demo.spaced (Demo.typed 2 " d") initial)
  = (Normal [candidate Demo.spaced (Demo.tracked Demo.spaced (1, 2))
               (str " <d>${content}</d>") (str "<d>content</d>")],
     after Demo.spaced (Demo.typed 2 " d") initial).
Proof.
  refine (candidate_request_repeatable Demo.spaced (Demo.typed 2 " d")
            (Demo.invoked 2 " d") initial _ _).
  vm_compute. reflexivity.
Defined.

(** X8 on [ul>], disposed of, then a [d] typed after a space. *)
Lemma disposal_then_fresh_start_witness :
  exists e,
    startedRange Demo.retyped (Demo.typed 5 "ul> d")
      (after Demo.ul_child (Demo.typed 3 "ul>") (Demo.tracking Demo.ul_child (0, 3)))
    = Some (5 - 1, e)
    /\ (e = 5 \/ e = 5 + 1).
Proof.
  refine (disposal_then_fresh_start Demo.ul_child (Demo.typed 3 "ul>")
            (Demo.tracking Demo.ul_child (0, 3)) (Demo.tracked Demo.ul_child (0, 3))
            Demo.retyped (Demo.typed 5 "ul> d") Demo.html _ _ _ _ _ _ _ _).
  - reflexivity.
  - left. eexists. vm_compute. reflexivity.
  - reflexivity.
  - reflexivity.
  - reflexivity.
  - reflexivity.
  - apply trigger_words. reflexivity.
  - reflexivity.
Defined.

(** X10 on the configurations of a line indented by a space and by a
    tab. *)
Lemma preview_ignores_indentation_witness :
  getPreviewConfig (getConfig Demo.spaced Demo.html)
  = getPreviewConfig (getConfig Demo.tabbed Demo.html).
Proof.
  refine (preview_ignores_indentation (getConfig Demo.spaced Demo.html)
            (getConfig Demo.tabbed Demo.html) _ _ _ _).
  - reflexivity.
  - reflexivity.
  - reflexivity.
  - intros k _ _ Hbase. cbn. unfold Demo.outputOptions.
    rewrite !(lookup_insert_ne _ "output.baseIndent"%string) by done.
    reflexivity.
Defined.

(** X11 on [div], invoked at its end. *)
Lemma started_tracker_carries_context_witness :
  exists c,
    getAbbreviationContext Demo.div 3 = Some c
    /\ Tracker.asContext (Demo.tracked Demo.div (0, 3)) = c
    /\ Tracker.options (Demo.tracked Demo.div (0, 3))
       = Some (getOutputOptions Demo.div (ActivationContext.inline c))
    /\ getConfig Demo.div (Tracker.asContext (Demo.tracked Demo.div (0, 3)))
       = getConfig Demo.div c
    /\ slot 0%nat (registry (resolveTracker Demo.div (Demo.invoked 3 "div") initial).2)
       = Some (Demo.tracked Demo.div (0, 3))
    /\ (Invoke = Invoke ->
        extract Demo.div 3 (getConfig Demo.div c) = Some (Extracted.mk 0 3)).
Proof.
  refine (started_tracker_carries_context Demo.div (Demo.invoked 3 "div") initial
            (Demo.tracked Demo.div (0, 3)) _ _).
  - reflexivity.
  - vm_compute. reflexivity.
Defined.

(** X12 on a parenthesis that the editor has closed. *)
Lemma implicit_range_shape_witness :
  exists ch,
    last (str " (") = Some ch
    /\ abbreviationStart ch
    /\ ch <> 123%N
    /\ 1 = 2 - 1
    /\ (3 = 2 \/
        3 = 2 + 1
        /\ ((ch = 40%N /\ charAt (str " ()") 2 = Some 41%N) \/
            (ch = 91%N /\ charAt (str " ()") 2 = Some 93%N))).
Proof.
  refine (implicit_range_shape Demo.group (Demo.typed 2 " (") initial 1 3 _ _).
  - reflexivity.
  - vm_compute. reflexivity.
Defined.

(** X13 on a parenthesis that the editor has closed. *)
Lemma implicit_failure_survives_iff_paired_witness :
  (slot 0%nat (registry (after Demo.group (Demo.typed 2 " (") initial))
   = Some (Demo.tracked Demo.group (1, 3)) <-> 3 = 2 + 1)
  /\ (slot 0%nat (registry (after Demo.group (Demo.typed 2 " (") initial)) = None
      <-> 3 = 2).
Proof.
  refine (implicit_failure_survives_iff_paired Demo.group (Demo.typed 2 " (") initial
            (Demo.tracked Demo.group (1, 3)) _ _ _ _).
  - reflexivity.
  - reflexivity.
  - vm_compute. reflexivity.
  - left. eexists. vm_compute. reflexivity.
Defined.
